(** * Bayesian-Optimization: the BO class of [methods/bo.py]

    A shallow embedding of the control loop of [methods/bo.py] (class [BO],
    a subclass of gpflow's [GPR]) and the properties of its multi-restart
    reducers, its sampler, its normaliser, its constructor and its main loop.

    Conventions of the embedding.
    - Python exceptions are values of [exn]; a call that may raise returns a
      [res].  Code that also updates state runs in [M St], where the state
      reached when the exception was raised is kept (Python does not roll
      back).
    - Python floats are IEEE-754 binary64 numbers: [spec_float] with the
      comparisons [SFltb] and [SFleb] (false on NaN) and the arithmetic of
      [SpecFloat] at precision 53.
    - A two dimensional numpy array of dtype float64 (the dtype of the
      arrays that [np.zeros] and [np.random.uniform] create) is a [matrix]:
      its column count and its rows.  Arrays that the code updates in place
      or copies live in a heap of arrays, dictionaries that it updates in
      place in a heap of dictionaries.
    - gpflow, tensorflow, numpy's random generator and the solver of
      [methods/solvers.py] are collaborators: operations of the class
      [Collaborators], with the contracts the properties need stated as
      hypotheses. *)

From Stdlib Require Import ZArith Lia Bool SpecFloat.
From stdpp Require Import base option list gmap strings.

Open Scope Z_scope.
Open Scope list_scope.

(** ** Exceptions and the state-and-exception monad *)

Inductive exn : Type :=
  | TypeError | KeyError | AttributeError | IndexError | ValueError
  | AssertionError | KeyboardInterrupt | RuntimeError | OverflowError.

Inductive res (A : Type) : Type :=
  | Ok (a : A)
  | Raise (e : exn).
Arguments Ok {A} a.
Arguments Raise {A} e.

Definition res_bind {A B} (r : res A) (k : A -> res B) : res B :=
  match r with
  | Ok a => k a
  | Raise e => Raise e
  end.

Definition is_ok {A} (r : res A) : bool :=
  match r with Ok _ => true | Raise _ => false end.

(** A computation over a state [St]: the outcome and the state it leaves. *)
Definition M (St A : Type) : Type := St -> res A * St.

Definition ret {St A} (a : A) : M St A := fun s => (Ok a, s).

Definition raise {St A} (e : exn) : M St A := fun s => (Raise e, s).

Definition bind {St A B} (m : M St A) (k : A -> M St B) : M St B :=
  fun s =>
    match m s with
    | (Ok a, s') => k a s'
    | (Raise e, s') => (Raise e, s')
    end.

Definition lift {St A} (r : res A) : M St A := fun s => (r, s).

Definition get_state {St} : M St St := fun s => (Ok s, s).

Definition modify {St} (f : St -> St) : M St unit := fun s => (Ok tt, f s).

Declare Scope py_scope.
Delimit Scope py_scope with py.
Notation "x <- m ;; k" := (bind m (fun x => k))
  (at level 100, m at next level, right associativity) : py_scope.
Notation "m ;;; k" := (bind m (fun _ => k))
  (at level 100, right associativity) : py_scope.
Open Scope py_scope.

(** [try: body / except KeyboardInterrupt: raise / except: handler]: the bare
    [except] clause catches every exception but the interrupt, which the
    clause before it re-raises. *)
Definition try_except {St A} (body : M St A) (handler : M St A) : M St A :=
  fun s =>
    match body s with
    | (Ok a, s') => (Ok a, s')
    | (Raise KeyboardInterrupt, s') => (Raise KeyboardInterrupt, s')
    | (Raise _, s') => handler s'
    end.

(** [for i in range(n): acc = body i acc], from index [i]. *)
Fixpoint for_from {St A} (i : nat) (n : nat) (body : nat -> A -> M St A) (a : A)
  : M St A :=
  match n with
  | O => ret a
  | S n' => a' <- body i a ;; for_from (S i) n' body a'
  end.

Definition for_range {St A} (n : nat) (body : nat -> A -> M St A) (a : A)
  : M St A :=
  for_from 0 n body a.

(** The outcome of a computation satisfies [Q] when it returns and [E] when
    it raises. *)
Definition outcome {St A} (r : res A * St)
    (Q : A -> St -> Prop) (E : exn -> St -> Prop) : Prop :=
  match r with
  | (Ok a, s) => Q a s
  | (Raise e, s) => E e s
  end.

(** ** Floats *)

Abbreviation float := spec_float.

Definition flt (x y : float) : bool := SFltb x y.
Definition fle (x y : float) : bool := SFleb x y.

(** [float("inf")] *)
Definition float_inf : float := S754_infinity false.

Definition float_zero : float := S754_zero false.

(** [1.0] *)
Definition float_one : float := S754_finite false 4503599627370496 (-52).

Definition is_nan (x : float) : bool :=
  match x with S754_nan => true | _ => false end.

(** [np.isfinite(x)]: neither an infinity nor NaN. *)
Definition is_finite (x : float) : bool :=
  match x with
  | S754_zero _ | S754_finite _ _ _ => true
  | S754_infinity _ | S754_nan => false
  end.

(** binary64 arithmetic *)
Definition fsub (x y : float) : float := SFsub 53 1024 x y.
Definition fdiv (x y : float) : float := SFdiv 53 1024 x y.

(** ** Arrays *)

(** A two dimensional array of dtype float64 and of shape
    [(length rows, ncols)]. *)
Record matrix : Type := Matrix {
  ncols : nat;
  rows : list (list float)
}.

Definition nrows (A : matrix) : nat := length (rows A).

Definition wf_matrix (A : matrix) : Prop :=
  Forall (fun r => length r = ncols A) (rows A).

(** [np.zeros((k, n))] *)
Definition np_zeros (k n : nat) : matrix :=
  Matrix n (replicate k (replicate n float_zero)).

(** [A[:, i]]: numpy checks the index against the column count, also when
    the array has no rows. *)
Definition get_col (A : matrix) (i : nat) : res (list float) :=
  if decide (i < ncols A)%nat
  then Ok (map (fun r => default float_zero (r !! i)) (rows A))
  else Raise IndexError.

(** The values assigned to a column of [k] rows: an array of [k] values, or
    one value broadcast to the [k] rows. *)
Definition broadcast_col (k : nat) (v : list float) : res (list float) :=
  if decide (length v = k) then Ok v
  else match v with
       | [x] => Ok (replicate k x)
       | _ => Raise ValueError
       end.

(** [A[:, i] = v] *)
Definition set_col (A : matrix) (i : nat) (v : list float) : res matrix :=
  if decide (i < ncols A)%nat
  then res_bind (broadcast_col (nrows A) v) (fun v' =>
         Ok (Matrix (ncols A) (zip_with (fun r x => <[i := x]> r) (rows A) v')))
  else Raise IndexError.

(** [A[:, 0:1]]: a slice never raises; it keeps at most the first column. *)
Definition slice_col0 (A : matrix) : matrix :=
  Matrix (Nat.min 1 (ncols A)) (map (take 1) (rows A)).

(** [np.concatenate((A, B))] along the rows. *)
Definition np_concatenate (A B : matrix) : res matrix :=
  if decide (ncols A = ncols B)
  then Ok (Matrix (ncols A) (rows A ++ rows B))
  else Raise ValueError.

(** The bounds array, of shape [(dim, 2)]: one row [(lower, upper)] for each
    dimension. *)
Abbreviation bounds_t := (list (float * float)).

(** The array [np.tile(bounds, (reps, 1))] returns: [reps] copies of the
    rows, one after the other. *)
Definition np_tile (b : bounds_t) (reps : nat) : bounds_t :=
  concat (replicate reps b).

(** The width [upper - lower] of a dimension, as [np.random.uniform]
    computes it, is finite. *)
Definition finite_range (b : float * float) : bool :=
  is_finite (fsub (snd b) (fst b)).

(** ** Python values of the configuration *)

(** The objective collaborator: an object with a [bounds] attribute and a
    method [f] (the method is the operation [objective_f] below). *)
Record objective : Type := Objective {
  objective_id : nat;
  objective_bounds : bounds_t
}.

Inductive pyval : Type :=
  | VNone
  | VBool (b : bool)
  | VInt (z : Z)
  | VFloat (x : float)
  | VStr (s : string)
  | VObjective (o : objective)
  | VOpaque (name : string).   (* kernels, mean functions: opaque objects *)

(** Truth value of an object, as [if] and [and] take it. *)
Definition truthy (v : pyval) : bool :=
  match v with
  | VNone => false
  | VBool b => b
  | VInt z => negb (z =? 0)
  | VFloat x => negb (SFeqb x float_zero)
  | VStr s => negb (String.eqb s EmptyString)
  | VObjective _ | VOpaque _ => true
  end.

(** An object used as an integer ([range], the counts of [np.tile]): ints
    and bools. *)
Definition py_index (v : pyval) : res Z :=
  match v with
  | VInt z => Ok z
  | VBool b => Ok (if b then 1 else 0)
  | _ => Raise TypeError
  end.

(** Number of iterations of [for _ in range(v)]: none when [v <= 0]. *)
Definition py_range (v : pyval) : res nat :=
  res_bind (py_index v) (fun z => Ok (Z.to_nat z)).

(** A dimension of the shape given to [np.zeros]: an int, and not a bool;
    a negative one is refused. *)
Definition py_count (v : pyval) : res nat :=
  match v with
  | VInt z => if z <? 0 then Raise ValueError else Ok (Z.to_nat z)
  | _ => Raise TypeError
  end.

(** [np.tile(bounds, (reps, 1))].  A count equal to [1] gives a copy.  Any
    other count is used for [repeat], which refuses a negative one and one
    that is not an integer, unless the array is empty: then [repeat] is
    skipped and only the shape [(0 * reps, 2)] is formed, which an int
    gives and another object does not. *)
Definition tile_bounds (b : bounds_t) (reps : pyval) : res bounds_t :=
  match reps with
  | VInt _ | VBool _ =>
      res_bind (py_index reps) (fun z =>
        if decide (z = 1) then Ok b
        else if decide (b = []) then Ok []
        else if z <? 0 then Raise ValueError
        else Ok (np_tile b (Z.to_nat z)))
  | VFloat x => if SFeqb x float_one then Ok b else Raise TypeError
  | _ => Raise TypeError
  end.

(** [v > 0] *)
Definition py_gt0 (v : pyval) : res bool :=
  match v with
  | VInt z => Ok (0 <? z)
  | VBool b => Ok b
  | VFloat x => Ok (flt float_zero x)
  | _ => Raise TypeError
  end.

(** [d[k]] *)
Definition getitem (d : gmap string pyval) (k : string) : res pyval :=
  match d !! k with
  | Some v => Ok v
  | None => Raise KeyError
  end.

(** [v.bounds] and [v.f]: only the objective has them. *)
Definition as_objective (v : pyval) : res objective :=
  match v with
  | VObjective o => Ok o
  | _ => Raise AttributeError
  end.

(** A gpflow parameter: its value and whether it is excluded from fitting. *)
Record param : Type := Param {
  p_value : pyval;
  p_fixed : bool
}.

(** ** The object and its collaborators *)

Abbreviation loc := positive.

(** The attributes [__init__] sets.  No method of the class assigns them
    again: the methods below read them from this record. *)
Record BO : Type := MkBO {
  bounds : bounds_t;
  dim : nat;
  iterations : pyval;
  batch_size : pyval;
  initial_size : pyval;
  hessian : pyval;
  options : gmap string pyval;   (* contents of [self.options] *)
  options_ref : loc;             (* the dictionary object [self.options] *)
  likelihood_variance : param    (* [self.likelihood.variance] *)
}.

(** The mutable part of [self] and of the process: the attributes the
    methods assign, the model's free parameter vector (read by
    [get_free_state], written by [set_state]) and everything else the
    collaborators keep (random generators, the tensorflow graph) as [env]. *)
Record state (E : Type) : Type := State {
  self_seed : option Z;
  self_X : matrix;
  self_Y : matrix;
  self_samples : option matrix;
  free_state : list float;
  needs_recompile : bool;
  env : E
}.
Arguments State {E}.
Arguments self_seed {E}.
Arguments self_X {E}.
Arguments self_Y {E}.
Arguments self_samples {E}.
Arguments free_state {E}.
Arguments needs_recompile {E}.
Arguments env {E}.

Class Collaborators : Type := {
  env_t : Type;
  (* numpy *)
  np_random_uniform : float -> float -> nat -> state env_t -> list float * state env_t;
  np_mean : list float -> float;
  np_std : list float -> float;
  (* seeding of tensorflow and of Python's [random] *)
  tf_set_random_seed : Z -> M (state env_t) unit;
  random_seed : Z -> M (state env_t) unit;
  (* gpflow: [GPR.__init__] gives the likelihood variance parameter *)
  GPR_init : matrix -> matrix -> pyval -> pyval -> res param;
  gp_compile : M (state env_t) unit;
  gp_objective : state env_t -> list float -> res (float * list float);
  gp_randomize : M (state env_t) unit;
  gp_optimize : M (state env_t) unit;
  gp_sample : pyval -> M (state env_t) matrix;
  gp_get_samples_df : matrix -> M (state env_t) matrix;
  (* methods/solvers.py *)
  solve : matrix -> bounds_t -> pyval -> pyval -> M (state env_t) (matrix * float * pyval);
  (* the objective's method [f] *)
  objective_f : objective -> matrix -> M (state env_t) matrix
}.

Abbreviation st := (state env_t).

(** ** Heaps: dictionaries and arrays as shared objects *)

(** The heap of dictionaries. *)
Abbreviation dheap := (gmap loc (gmap string pyval)).

(** The model's objective as [optimize_restarts] holds it: value and
    gradient at a parameter vector. *)
Abbreviation objective_fn := (list float -> res (float * list float)).


Definition load {V} (l : loc) : M (gmap loc V) V :=
  fun h =>
    match h !! l with
    | Some v => (Ok v, h)
    | None => (Raise RuntimeError, h)
    end.

Definition store {V} (l : loc) (v : V) : M (gmap loc V) unit :=
  fun h => (Ok tt, <[l := v]> h).

(** A new object: its address is not in use. *)
Definition alloc {V} (v : V) : M (gmap loc V) loc :=
  fun h => let l := fresh (dom h) in (Ok l, <[l := v]> h).

(** ** The methods of [BO] *)

Section Methods.
Context `{Collaborators}.

(** [np.random.uniform(lo, hi, k)]: numpy computes the width [hi - lo] and
    raises [OverflowError] unless it is finite; otherwise it draws from the
    process-wide generator. *)
Definition uniform (lo hi : float) (k : nat) : M st (list float) :=
  fun s =>
    if is_finite (fsub hi lo)
    then let '(v, s') := np_random_uniform lo hi k s in (Ok v, s')
    else (Raise OverflowError, s).

(** Line 183, the body of the loop of [random_sample]:
    [X[:, i] = np.random.uniform(bounds[i, 0], bounds[i, 1], k)]. *)
Definition sample_body (bounds : bounds_t) (k : nat) (i : nat) (X : matrix)
  : M st matrix :=
  match bounds !! i with
  | Some (lo, hi) => v <- uniform lo hi k ;; lift (set_col X i v)
  | None => raise IndexError
  end.

(** Lines 169-185, [random_sample(bounds, k)]. *)
Definition random_sample (bounds : bounds_t) (k : pyval) : M st matrix :=
  let n := length bounds in
  k' <- lift (py_count k) ;;
  for_range n (sample_body bounds k') (np_zeros k' n).

(** Lines 187-201, [normalize(self, Y)], on the heap of arrays: [Y] is the
    address of the argument, the result the address of the new array.  The
    arrays are of dtype float64, so that the assignment of line 199 stores
    the values as they are computed. *)
Definition normalize (self : BO) (Y : loc) : M (gmap loc matrix) loc :=
  Yv <- load Y ;;
  Y_ <- alloc Yv ;;                                   (* Y_ = Y.copy() *)
  flag <- lift (getitem (options self) "normalize_Y") ;;
  enabled <-
    (if truthy flag
     then Yv <- load Y ;;
          col <- lift (get_col Yv 0) ;;
          ret (flt float_zero (np_std col))           (* np.std(Y[:, 0]) > 0 *)
     else ret false) ;;
  (if enabled : bool
   then Yv <- load Y ;;
        col <- lift (get_col Yv 0) ;;
        let mean := np_mean col in
        let std := np_std col in
        let col' := map (fun y => fdiv (fsub y mean) std) col in
        Yc <- load Y_ ;;
        Yc' <- lift (set_col Yc 0 col') ;;
        store Y_ Yc'                                  (* Y_[:, 0] = ... *)
   else ret tt) ;;;
  ret Y_.

(** [normalize] on an array value: the contents of the array it returns
    when the argument is the only array of the heap. *)
Definition normalize_value (self : BO) (Yv : matrix) : res matrix :=
  match normalize self 1%positive {[ 1%positive := Yv ]} with
  | (Ok l, h) =>
      match h !! l with
      | Some Yv' => Ok Yv'
      | None => Raise RuntimeError
      end
  | (Raise e, _) => Raise e
  end.

(** [self.get_free_state().copy()] and [self.set_state(x)] *)
Definition get_free_state : M st (list float) :=
  fun s => (Ok (free_state s), s).

Definition set_state (x : list float) : M st unit :=
  modify (fun s =>
    State (self_seed s) (self_X s) (self_Y s) (self_samples s) x
          (needs_recompile s) (env s)).

(** One restart of lines 153-161: the local [x] and the value [val] the
    trial leaves.  The inner handler is the [except] clause reached from
    [obj(x)], after [x] was assigned; the outer one is the same clause reached
    before the assignment, where [x] keeps what it held. *)
Definition restart_trial (obj : objective_fn)
    (x : option (list float)) : M st (option (list float) * float) :=
  try_except
    (gp_randomize ;;;
     gp_optimize ;;;
     x' <- get_free_state ;;
     try_except
       (r <- lift (obj x') ;; ret (Some x', fst r))
       (ret (Some x', float_inf)))
    (ret (x, float_inf)).

(** Lines 163-165: the incumbent after a trial. *)
Definition restart_update (par_min : list float) (val_min : float)
    (x : option (list float)) (val : float) : M st (list float * float) :=
  if flt val val_min
  then match x with
       | Some xv => ret (xv, val)
       | None => raise RuntimeError        (* [x] read before assignment *)
       end
  else ret (par_min, val_min).

(** The loop state of [optimize_restarts]: [par_min], [val_min], [x]. *)
Definition restart_step (obj : objective_fn)
    (i : nat) (acc : list float * float * option (list float))
  : M st (list float * float * option (list float)) :=
  let '(par_min, val_min, x) := acc in
  r <- restart_trial obj x ;;
  pv <- restart_update par_min val_min (fst r) (snd r) ;;
  ret (fst pv, snd pv, fst r).

(** Lines 146-147: the recompilation before the restarts. *)
Definition recompile_if_needed : M st unit :=
  s <- get_state ;;
  if needs_recompile s then gp_compile else ret tt.

(** Lines 142-167, [optimize_restarts(self, restarts)]. *)
Definition optimize_restarts (restarts : pyval) : M st unit :=
  recompile_if_needed ;;;
  s0 <- get_state ;;
  let obj := gp_objective s0 in
  par_min <- get_free_state ;;
  r <- lift (obj par_min) ;;
  let val_min := fst r in
  n <- lift (py_range restarts) ;;
  acc <- for_range n (restart_step obj) (par_min, val_min, None) ;;
  set_state (fst (fst acc)).

(** Lines 116-117: the incumbent [(X, y)] after a successful trial. *)
Definition suggestion_update (inc : option (matrix * float))
    (X0 : matrix) (y0 : float) : option (matrix * float) :=
  match inc with
  | None => Some (X0, y0)
  | Some (X, y) => if flt y0 y then Some (X0, y0) else Some (X, y)
  end.

(** Lines 108-112: the solver call of a trial of [get_suggestion]. *)
Definition solver_call (self : BO) (X_init : matrix) (bounds_tiled : bounds_t)
  : M st (matrix * float * pyval) :=
  solver <- lift (getitem (options self) "nl_solver") ;;
  solve X_init bounds_tiled (hessian self) solver.

(** Lines 104-123: one trial of [get_suggestion].  The message printed to
    [stderr] by the handler is not part of the state. *)
Definition suggestion_step (self : BO) (batch_size : pyval)
    (bounds_tiled : bounds_t) (j : nat) (inc : option (matrix * float))
  : M st (option (matrix * float)) :=
  X_init <- random_sample (bounds self) batch_size ;;
  try_except
    (r <- solver_call self X_init bounds_tiled ;;
     let '(X0, y0, _) := r in
     ret (suggestion_update inc X0 y0))
    (ret inc).

(** Lines 94-128, [get_suggestion(self, batch_size)]. *)
Definition get_suggestion (self : BO) (batch_size : pyval) : M st matrix :=
  bounds_tiled <- lift (tile_bounds (bounds self) batch_size) ;;
  restarts <- lift (getitem (options self) "opt_restarts") ;;
  n <- lift (py_range restarts) ;;
  inc <- for_range n (suggestion_step self batch_size bounds_tiled) None ;;
  match inc with
  | Some (X, _) => ret X
  | None => raise AssertionError                      (* assert X is not None *)
  end.

(** Dictionary objects: [d[k]], [k in d], [d[k] = v], [d.copy()] through
    the address of the dictionary. *)
Definition getitem_ref (l : loc) (k : string)
  : M dheap pyval :=
  d <- load l ;; lift (getitem d k).

Definition contains_ref (l : loc) (k : string)
  : M dheap bool :=
  d <- load l ;; ret (bool_decide (is_Some (d !! k))).

Definition setitem_ref (l : loc) (k : string) (v : pyval)
  : M dheap unit :=
  d <- load l ;; store l (<[k := v]> d).

Definition dict_copy (l : loc) : M dheap loc :=
  d <- load l ;; alloc d.

(** Lines 35-38: the likelihood variance after the noise option is read.
    Assigning to a gpflow parameter sets its value. *)
Definition fix_noise (lik : param) (noise : pyval) : param :=
  match noise with
  | VNone => lik
  | v => Param v true
  end.

(** Lines 15-38, [__init__(self, options)]: [options] is the address of the
    caller's dictionary. *)
Definition BO_init (options : loc) : M dheap BO :=
  o <- getitem_ref options "objective" ;;
  ob <- lift (as_objective o) ;;
  let bounds := objective_bounds ob in                (* .bounds.copy() *)
  let dim := length bounds in
  present <- contains_ref options "mean_function" ;;
  (if present : bool then ret tt
   else setitem_ref options "mean_function" VNone) ;;;
  kern <- getitem_ref options "kernel" ;;
  mean_function <- getitem_ref options "mean_function" ;;
  lik <- lift (GPR_init (np_zeros 0 dim) (np_zeros 0 dim) kern mean_function) ;;
  iterations <- getitem_ref options "iterations" ;;
  batch_size <- getitem_ref options "batch_size" ;;
  initial_size <- getitem_ref options "initial_size" ;;
  hessian <- getitem_ref options "hessian" ;;
  copy <- dict_copy options ;;                        (* options.copy() *)
  noise <- getitem_ref copy "noise" ;;
  d <- load copy ;;
  ret (MkBO bounds dim iterations batch_size initial_size hessian d copy
            (fix_noise lik noise)).

(** Assignments to attributes of [self]. *)
Definition set_seed (seed : Z) : M st unit :=
  modify (fun s =>
    State (Some seed) (self_X s) (self_Y s) (self_samples s) (free_state s)
          (needs_recompile s) (env s)).

Definition set_X (X : matrix) : M st unit :=
  modify (fun s =>
    State (self_seed s) X (self_Y s) (self_samples s) (free_state s)
          (needs_recompile s) (env s)).

Definition set_Y (Y : matrix) : M st unit :=
  modify (fun s =>
    State (self_seed s) (self_X s) Y (self_samples s) (free_state s)
          (needs_recompile s) (env s)).

Definition set_samples (df : matrix) : M st unit :=
  modify (fun s =>
    State (self_seed s) (self_X s) (self_Y s) (Some df) (free_state s)
          (needs_recompile s) (env s)).

(** Calling an object: none of the values a configuration or a seed holds
    is callable; Python raises [TypeError]. *)
Definition py_call (callee : pyval) (arg : pyval) : M st pyval :=
  match callee with
  | VNone | VBool _ | VInt _ | VFloat _ | VStr _ | VObjective _ | VOpaque _ =>
      raise TypeError
  end.

(** Lines 69-90: one iteration of the loop on the history
    [(X_all, y_all)]. *)
Definition bo_iteration (self : BO) (objective : objective) (i : nat)
    (data : matrix * matrix) : M st (matrix * matrix) :=
  let '(X_all, y_all) := data in
  restarts <- lift (getitem (options self) "model_restarts") ;;
  optimize_restarts restarts ;;;
  samples <- lift (getitem (options self) "samples") ;;
  sampling <- lift (py_gt0 samples) ;;
  (if sampling : bool
   then samples_raw <- gp_sample samples ;;
        df <- gp_get_samples_df samples_raw ;;
        set_samples df
   else ret tt) ;;;
  X_new <- get_suggestion self (batch_size self) ;;
  y_new <- objective_f objective X_new ;;
  X_all' <- lift (np_concatenate X_all X_new) ;;
  y_all' <- lift (np_concatenate y_all y_new) ;;
  set_X X_all' ;;;
  Y' <- lift (normalize_value self (slice_col0 y_all')) ;;
  set_Y Y' ;;;
  ret (X_all', y_all').

(** Lines 51-66: the initial batch. *)
Definition bo_initialize (self : BO) : M st (objective * (matrix * matrix)) :=
  o <- lift (getitem (options self) "objective") ;;   (* copy.copy(...) *)
  X0 <- random_sample (bounds self) (initial_size self) ;;
  objective <- lift (as_objective o) ;;
  y0 <- objective_f objective X0 ;;
  set_X X0 ;;;
  Y0 <- lift (normalize_value self (slice_col0 y0)) ;;
  set_Y Y0 ;;;
  ret (objective, (X0, y0)).

(** Lines 51-92: the body of [bayesian_optimization] after the seeding. *)
Definition bo_loop (self : BO) : M st (matrix * matrix) :=
  init <- bo_initialize self ;;
  n <- lift (py_range (iterations self)) ;;
  for_range n (bo_iteration self (fst init)) (snd init).

(** Lines 40-92, [bayesian_optimization(self, seed)].  Line 48 is
    [seed(seed)]: the callee is the parameter [seed] itself. *)
Definition bayesian_optimization (self : BO) (seed : Z)
  : M st (matrix * matrix) :=
  set_seed seed ;;;
  tf_set_random_seed seed ;;;
  py_call (VInt seed) (VInt seed) ;;;
  random_seed seed ;;;
  bo_loop self.

End Methods.

(** ** Reference definitions *)

Section Reference.
Context `{Collaborators}.

(** The draws of [random_sample]: one call of [np.random.uniform] for each
    dimension, in order, each with the bounds of its own dimension. *)
Fixpoint column_draws (bounds : bounds_t) (k : nat) (s : st)
  : list (list float) * st :=
  match bounds with
  | [] => ([], s)
  | (lo, hi) :: bounds' =>
      let '(v, s1) := np_random_uniform lo hi k s in
      let '(vs, s2) := column_draws bounds' k s1 in
      (v :: vs, s2)
  end.

(** The generator state before the draw of dimension [i]: the state the
    draws of the dimensions before it have left, one after the other. *)
Fixpoint state_before (bounds : bounds_t) (k : nat) (s : st) (i : nat) : st :=
  match i, bounds with
  | S i', (lo, hi) :: bounds' =>
      state_before bounds' k (snd (np_random_uniform lo hi k s)) i'
  | _, _ => s
  end.

(** Lines 154-157 as straight-line code: the body of the [try] block of a
    restart, with the [x] and the [val] it assigns. *)
Definition trial_body (obj : objective_fn)
  : M st (list float * float) :=
  gp_randomize ;;;
  gp_optimize ;;;
  x <- get_free_state ;;
  r <- lift (obj x) ;;
  ret (x, fst r).

(** The caller's dictionary after line 20. *)
Definition with_mean_default (d : gmap string pyval) : gmap string pyval :=
  match d !! "mean_function" with
  | Some _ => d
  | None => <["mean_function" := VNone]> d
  end.

(** Column 0 of an array with at least one column. *)
Definition column0 (A : matrix) : list float :=
  map (fun r => default float_zero (r !! 0%nat)) (rows A).

(** The column the normaliser writes: [(y - mean) / std]. *)
Definition standardized (col : list float) : list float :=
  map (fun y => fdiv (fsub y (np_mean col)) (np_std col)) col.

(** How the trials of a call of [get_suggestion] end: all of them ran, or
    an exception left the loop. *)
Inductive run_end : Type :=
  | Completed
  | Aborted (e : exn).

(** The trials of a call of [get_suggestion] as a trace: the outcomes of the
    solver calls that the loop survives (a solution, or an exception that
    the handler catches), how the loop ends and the state it leaves.  The
    loop is left by an exception of the sampler, which is called outside
    the [try] block, and by an interrupt of the solver call. *)
Fixpoint run_trials (self : BO) (batch_size : pyval) (bounds_tiled : bounds_t)
    (n : nat) (s : st)
  : list (res (matrix * float * pyval)) * run_end * st :=
  match n with
  | O => ([], Completed, s)
  | S n' =>
      match random_sample (bounds self) batch_size s with
      | (Raise e, s1) => ([], Aborted e, s1)
      | (Ok X_init, s1) =>
          match solver_call self X_init bounds_tiled s1 with
          | (Raise KeyboardInterrupt, s2) => ([], Aborted KeyboardInterrupt, s2)
          | (r, s2) =>
              let '(rs, fin, s3) :=
                run_trials self batch_size bounds_tiled n' s2 in
              (r :: rs, fin, s3)
          end
      end
  end.

(** The best candidate of a list of trial outcomes: the first solution is
    taken, a later one replaces it when its value is strictly smaller, and
    a failed trial gives no candidate. *)
Fixpoint best_candidate (inc : option (matrix * float))
    (outs : list (res (matrix * float * pyval))) : option (matrix * float) :=
  match outs with
  | [] => inc
  | Raise _ :: outs' => best_candidate inc outs'
  | Ok (X0, y0, _) :: outs' =>
      best_candidate
        (match inc with
         | None => Some (X0, y0)
         | Some (X, y) => if flt y0 y then Some (X0, y0) else Some (X, y)
         end) outs'
  end.

(** The history after [n] iterations of the loop. *)
Definition bo_iterations (self : BO) (objective : objective) (n : nat)
    (data : matrix * matrix) : M st (matrix * matrix) :=
  for_range n (bo_iteration self objective) data.

End Reference.

(** ** Contracts of the collaborators *)

(** When the width [hi - lo] is finite, [np.random.uniform(lo, hi, k)]
    returns [k] values, inside [lo, hi] when [lo <= hi]. *)
Class NumpyLaws `{Collaborators} : Prop := {
  uniform_length : forall lo hi k s,
    is_finite (fsub hi lo) = true ->
    length (fst (np_random_uniform lo hi k s)) = k;
  uniform_range : forall lo hi k s x,
    is_finite (fsub hi lo) = true ->
    fle lo hi = true ->
    x ∈ fst (np_random_uniform lo hi k s) ->
    fle lo x = true /\ fle x hi = true
}.

(** The solver returns a batch of the shape of its initial point; the
    objective returns one row of observations for each point. *)
Class ShapeLaws `{Collaborators} : Prop := {
  solve_shape : forall X_init b h sv s X0 y0 status s',
    solve X_init b h sv s = (Ok (X0, y0, status), s') ->
    nrows X0 = nrows X_init /\ ncols X0 = ncols X_init;
  objective_f_rows : forall o X s Y s',
    objective_f o X s = (Ok Y, s') -> nrows Y = nrows X
}.

(** ** Test doubles for the collaborators

    A deterministic instance of the collaborators, used to run the methods
    on concrete inputs: the generator alternates between the two ends of the
    interval, the model's objective is the first free parameter, its
    optimiser and the solver fail on every other call, and the objective
    function returns the first coordinate of each point.  The mean and the
    standard deviation are computed in binary64 as numpy computes them for
    fewer than eight values: the sum of the values in order divided by
    their number, and the square root of the mean of the squares of the
    deviations from that mean. *)

Module Demo.

Definition float_of_Z (z : Z) : float := binary_normalize 53 1024 z 0 false.

Definition with_env (s : state nat) (e : nat) : state nat :=
  State (self_seed s) (self_X s) (self_Y s) (self_samples s) (free_state s)
        (needs_recompile s) e.

Definition draw (lo hi : float) (j : nat) : float :=
  if Nat.even j then lo else hi.

Definition uniform_double (lo hi : float) (k : nat) (s : state nat)
  : list float * state nat :=
  (map (fun j => draw lo hi (env s + j)) (seq 0 k), with_env s (env s + k)).

Definition fsum (l : list float) : float :=
  fold_left (SFadd 53 1024) l float_zero.

Definition mean_double (l : list float) : float :=
  SFdiv 53 1024 (fsum l) (float_of_Z (Z.of_nat (length l))).

Definition std_double (l : list float) : float :=
  let m := mean_double l in
  SFsqrt 53 1024
    (mean_double (map (fun y => SFmul 53 1024 (fsub y m) (fsub y m)) l)).

Definition compile_double : M (state nat) unit :=
  modify (fun s =>
    State (self_seed s) (self_X s) (self_Y s) (self_samples s) (free_state s)
          false (env s)).

Definition objective_double (s : state nat) (x : list float)
  : res (float * list float) :=
  Ok (default float_zero (x !! 0%nat), []).

Definition randomize_double : M (state nat) unit :=
  modify (fun s =>
    State (self_seed s) (self_X s) (self_Y s) (self_samples s)
          [float_of_Z (Z.of_nat (env s))] (needs_recompile s) (S (env s))).

Definition optimize_double : M (state nat) unit :=
  fun s => if Nat.even (env s) then (Raise RuntimeError, s) else (Ok tt, s).

Definition solve_double (X_init : matrix) (b : bounds_t) (h sv : pyval)
  : M (state nat) (matrix * float * pyval) :=
  fun s =>
    let s' := with_env s (S (env s)) in
    if Nat.even (env s) then (Raise RuntimeError, s')
    else (Ok (X_init,
              default float_zero (head (concat (rows X_init))),
              VStr "converged"), s').

Definition f_double (o : objective) (X : matrix) : M (state nat) matrix :=
  ret (Matrix 1 (map (fun r => [default float_zero (r !! 0%nat)]) (rows X))).

Definition doubles : Collaborators := {|
  env_t := nat;
  np_random_uniform := uniform_double;
  np_mean := mean_double;
  np_std := std_double;
  tf_set_random_seed := fun _ => ret tt;
  random_seed := fun z => modify (fun s => with_env s (Z.to_nat z));
  GPR_init := fun _ _ _ _ => Ok (Param (VFloat (float_of_Z 1)) false);
  gp_compile := compile_double;
  gp_objective := objective_double;
  gp_randomize := randomize_double;
  gp_optimize := optimize_double;
  gp_sample := fun _ => ret (np_zeros 0 0);
  gp_get_samples_df := fun raw => ret raw;
  solve := solve_double;
  objective_f := f_double
|}.

(** The same collaborators with a solver that raises on every call. *)
Definition failing_solver : Collaborators := {|
  env_t := nat;
  np_random_uniform := uniform_double;
  np_mean := mean_double;
  np_std := std_double;
  tf_set_random_seed := fun _ => ret tt;
  random_seed := fun z => modify (fun s => with_env s (Z.to_nat z));
  GPR_init := fun _ _ _ _ => Ok (Param (VFloat (float_of_Z 1)) false);
  gp_compile := compile_double;
  gp_objective := objective_double;
  gp_randomize := randomize_double;
  gp_optimize := optimize_double;
  gp_sample := fun _ => ret (np_zeros 0 0);
  gp_get_samples_df := fun raw => ret raw;
  solve := fun _ _ _ _ => raise RuntimeError;
  objective_f := f_double
|}.

(** The search space [[0, 1] x [2, 5]]. *)
Definition unit_bounds : bounds_t :=
  [(float_of_Z 0, float_of_Z 1); (float_of_Z 2, float_of_Z 5)].

Definition an_objective : objective := Objective 0 unit_bounds.

(** A configuration as the caller writes it, without [mean_function]. *)
Definition config : gmap string pyval :=
  list_to_map
    [("objective", VObjective an_objective); ("kernel", VOpaque "RBF");
     ("iterations", VInt 2); ("batch_size", VInt 1); ("initial_size", VInt 3);
     ("hessian", VBool false); ("noise", VNone); ("normalize_Y", VBool true);
     ("model_restarts", VInt 2); ("samples", VInt 0); ("opt_restarts", VInt 3);
     ("nl_solver", VStr "slsqp")].

Definition config_fixed_noise : gmap string pyval :=
  <["noise" := VFloat (float_of_Z 3)]> config.

Definition config_without_noise : gmap string pyval :=
  delete "noise" config.

(** The object [BO(config)] builds. *)
Definition a_bo : BO :=
  MkBO unit_bounds 2 (VInt 2) (VInt 1) (VInt 3) (VBool false)
       (<["mean_function" := VNone]> config) 2%positive
       (Param (VFloat (float_of_Z 1)) false).

(** The same object configured with [opt_restarts = 0]. *)
Definition a_bo_without_restarts : BO :=
  MkBO unit_bounds 2 (VInt 2) (VInt 1) (VInt 3) (VBool false)
       (<["opt_restarts" := VInt 0]> (<["mean_function" := VNone]> config))
       2%positive (Param (VFloat (float_of_Z 1)) false).

Definition a_state : state nat :=
  State None (np_zeros 0 2) (np_zeros 0 2) None [float_of_Z 5] true 0%nat.

(** [a_state] once the model is compiled. *)
Definition a_compiled_state : state nat :=
  State None (np_zeros 0 2) (np_zeros 0 2) None [float_of_Z 5] false 0%nat.

(** An array of three observations with an auxiliary column. *)
Definition observations : matrix :=
  Matrix 2 [[float_of_Z 1; float_of_Z 7]; [float_of_Z 2; float_of_Z 8];
            [float_of_Z 3; float_of_Z 9]].

End Demo.

(** ** The acquisition wrapper *)

(** The argument of [acquisition]: a flat array or a batch-shaped one. *)
Inductive ndarray : Type :=
  | Flat (v : list float)
  | Batch (A : matrix).

(** [x.size] *)
Definition np_size (x : ndarray) : nat :=
  match x with
  | Flat v => length v
  | Batch A => (nrows A * ncols A)%nat
  end.

(** The elements of [x] in row-major order. *)
Definition np_ravel (x : ndarray) : list float :=
  match x with
  | Flat v => v
  | Batch A => concat (rows A)
  end.

Definition wf_ndarray (x : ndarray) : Prop :=
  match x with
  | Flat _ => True
  | Batch A => wf_matrix A
  end.

(** [k] consecutive rows of [n] elements. *)
Fixpoint chunks (n k : nat) (v : list float) : list (list float) :=
  match k with
  | O => []
  | S k' => take n v :: chunks n k' (drop n v)
  end.

(** [x.reshape(k, n)]: refused unless [k * n] is the size of [x]. *)
Definition np_reshape (x : ndarray) (k n : nat) : res matrix :=
  if decide (np_size x = (k * n)%nat)
  then Ok (Matrix n (chunks n k (np_ravel x)))
  else Raise ValueError.

(** Outcomes of [acquisition]: those of [res] and the division by zero of
    line 135. *)
Inductive arith_res (A : Type) : Type :=
  | Finished (r : res A)
  | ZeroDivisionError.
Arguments Finished {A} r.
Arguments ZeroDivisionError {A}.

(** The method [acquisition_tf], which the subclasses of [BO] define: the
    acquisition value at a batch and its gradient. *)
Class AcquisitionModel `{Collaborators} : Type := {
  acquisition_tf : matrix -> M st (float * ndarray)
}.

(** Lines 130-140, [acquisition(self, x)]. *)
Definition acquisition `{AcquisitionModel} (self : BO) (x : ndarray)
  : st -> arith_res (float * ndarray) * st :=
  fun s =>
    if decide (dim self = 0%nat) then (ZeroDivisionError, s)
    else
      let k := (np_size x / dim self)%nat in          (* x.size // self.dim *)
      match np_reshape x k (dim self) with
      | Ok X => let '(r, s') := acquisition_tf X s in (Finished r, s')
      | Raise e => (Finished (Raise e), s)
      end.

(** ** The normaliser by cases *)

Section NormalizerReference.
Context `{Collaborators}.

(** The array [normalize] leaves at the new address. *)
Definition normalized_array (self : BO) (Yv : matrix) : matrix :=
  match options self !! "normalize_Y" with
  | Some flag =>
      if truthy flag && bool_decide (0 < ncols Yv)%nat &&
         flt float_zero (np_std (column0 Yv))
      then Matrix (ncols Yv)
             (zip_with (fun r x => <[0%nat := x]> r) (rows Yv)
                       (standardized (column0 Yv)))
      else Yv
  | None => Yv
  end.

(** The outcome of [normalize] on an array of the heap. *)
Definition normalize_outcome (self : BO) (Yv : matrix) (Y_ : loc) : res loc :=
  match options self !! "normalize_Y" with
  | None => Raise KeyError
  | Some flag =>
      if truthy flag && negb (bool_decide (0 < ncols Yv)%nat)
      then Raise IndexError
      else Ok Y_
  end.

(** The model's training data agrees with a history: [self.X] is its
    points and [self.Y] the normalised first column of its observations. *)
Definition in_sync (self : BO) (data : matrix * matrix) (s : st) : Prop :=
  self_X s = fst data /\
  normalize_value self (slice_col0 (snd data)) = Ok (self_Y s).

End NormalizerReference.

(** ** More test doubles *)

Module Cases.

(** An acquisition that returns the first coordinate of the batch and a
    gradient of the shape of the batch. *)
Definition acquisition_double : @AcquisitionModel Demo.doubles := {|
  acquisition_tf := fun X =>
    ret (default float_zero (head (concat (rows X))), Batch X)
|}.

(** Six values, a batch of three points in the search space of [a_bo]. *)
Definition six_values : list float :=
  map Demo.float_of_Z [0; 2; 1; 5; 0; 3].

(** Collaborators whose optimiser is interrupted on its first call. *)
Definition interrupted : Collaborators := {|
  env_t := nat;
  np_random_uniform := Demo.uniform_double;
  np_mean := Demo.mean_double;
  np_std := Demo.std_double;
  tf_set_random_seed := fun _ => ret tt;
  random_seed := fun z => modify (fun s => Demo.with_env s (Z.to_nat z));
  GPR_init := fun _ _ _ _ => Ok (Param (VFloat (Demo.float_of_Z 1)) false);
  gp_compile := Demo.compile_double;
  gp_objective := Demo.objective_double;
  gp_randomize := Demo.randomize_double;
  gp_optimize := raise KeyboardInterrupt;
  gp_sample := fun _ => ret (np_zeros 0 0);
  gp_get_samples_df := fun raw => ret raw;
  solve := fun _ _ _ _ => raise KeyboardInterrupt;
  objective_f := Demo.f_double
|}.

(** [a_bo] with a configuration that lacks [nl_solver]. *)
Definition a_bo_without_solver : BO :=
  MkBO Demo.unit_bounds 2 (VInt 2) (VInt 1) (VInt 3) (VBool false)
       (delete "nl_solver" (<["mean_function" := VNone]> Demo.config))
       2%positive (Param (VFloat (Demo.float_of_Z 1)) false).

(** A compiled model whose objective at the entry parameters is NaN. *)
Definition nan_state : state nat :=
  State None (np_zeros 0 2) (np_zeros 0 2) None [S754_nan] false 0%nat.

(** An array with three rows and no column. *)
Definition no_columns : matrix := Matrix 0 [[]; []; []].

(** The largest binary64 number, [1.7976931348623157e308]. *)
Definition float_max : float := S754_finite false 9007199254740991 971.

(** Ordered bounds whose width [upper - lower] overflows. *)
Definition wide_bounds : bounds_t := [(SFopp float_max, float_max)].



Definition constant_sevens : matrix :=
  Matrix 1 [[Demo.float_of_Z 7]; [Demo.float_of_Z 7]; [Demo.float_of_Z 7]].

End Cases.

(** * Properties *)

(** ** Comparisons of floats *)

Lemma flt_inf_l (v : float) : flt float_inf v = false.
Proof. destruct v as [s|s| |s m e]; try destruct s; reflexivity. Qed.

Lemma flt_irrefl (x : float) : flt x x = false.
Proof.
  unfold flt, SFltb.
  destruct x as [s|s| |s m e]; try destruct s; simpl; try reflexivity;
    rewrite Z.compare_refl;
    change (Pos.compare_cont Eq m m) with (Pos.compare m m);
    rewrite Pos.compare_refl; reflexivity.
Qed.

Ltac cmp_cases :=
  repeat match goal with
  | |- context [Z.compare ?a ?b] => destruct (Z.compare_spec a b)
  | H : context [Z.compare ?a ?b] |- _ => destruct (Z.compare_spec a b)
  | |- context [Pos.compare ?a ?b] => destruct (Pos.compare_spec a b)
  | H : context [Pos.compare ?a ?b] |- _ => destruct (Pos.compare_spec a b)
  end.

Lemma flt_trans (x y z : float) :
  flt x y = true -> flt y z = true -> flt x z = true.
Proof.
  unfold flt, SFltb.
  destruct x as [sx|sx| |sx mx ex], y as [sy|sy| |sy my ey],
    z as [sz|sz| |sz mz ez];
    try destruct sx; try destruct sy; try destruct sz; simpl;
    try congruence;
    change (Pos.compare_cont Eq) with Pos.compare;
    intros Hxy Hyz; cmp_cases; simpl in *; subst;
    try congruence; try lia.
Qed.

(** [<=] holds between a float and itself unless it is NaN, and a float
    below another is not NaN. *)
Lemma fle_refl (x : float) : is_nan x = false -> fle x x = true.
Proof.
  unfold fle, SFleb.
  destruct x as [s|s| |s m e]; try destruct s; simpl; try easy; intros _;
    rewrite Z.compare_refl;
    change (Pos.compare_cont Eq m m) with (Pos.compare m m);
    rewrite Pos.compare_refl; reflexivity.
Qed.

Lemma fle_not_nan (x y : float) :
  fle x y = true -> is_nan x = false /\ is_nan y = false.
Proof.
  unfold fle, SFleb.
  destruct x as [s|s| |s m e], y as [s'|s'| |s' m' e']; simpl; easy.
Qed.

(** ** The monad and its loops *)

Lemma bind_ok {St A B} (m : M St A) (k : A -> M St B) s a s' :
  m s = (Ok a, s') -> bind m k s = k a s'.
Proof. unfold bind. intros ->. reflexivity. Qed.

Lemma bind_raise {St A B} (m : M St A) (k : A -> M St B) s e s' :
  m s = (Raise e, s') -> bind m k s = (Raise e, s').
Proof. unfold bind. intros ->. reflexivity. Qed.

Lemma bind_inv_ok {St A B} (m : M St A) (k : A -> M St B) s b s2 :
  bind m k s = (Ok b, s2) ->
  exists a s1, m s = (Ok a, s1) /\ k a s1 = (Ok b, s2).
Proof.
  unfold bind. destruct (m s) as [[a|e] s1]; [eauto | discriminate].
Qed.

Lemma outcome_bind {St A B} (m : M St A) (k : A -> M St B) s
    (P : A -> St -> Prop) (Q : B -> St -> Prop) (E : exn -> St -> Prop) :
  outcome (m s) P E ->
  (forall a s', P a s' -> outcome (k a s') Q E) ->
  outcome (bind m k s) Q E.
Proof.
  intros Hm Hk. unfold bind.
  destruct (m s) as [[a|e] s']; simpl in *; auto.
Qed.

Lemma outcome_imp {St A} (r : res A * St)
    (Q Q' : A -> St -> Prop) (E E' : exn -> St -> Prop) :
  outcome r Q E ->
  (forall a s, Q a s -> Q' a s) ->
  (forall e s, E e s -> E' e s) ->
  outcome r Q' E'.
Proof. destruct r as [[a|e] s]; simpl; auto. Qed.

(** The invariant rule of the [for] loop. *)
Lemma for_from_rule {St A} (body : nat -> A -> M St A)
    (I : nat -> A -> St -> Prop) (E : exn -> St -> Prop) (n : nat) :
  forall i a s,
    I i a s ->
    (forall j a s, (i <= j < i + n)%nat -> I j a s ->
       outcome (body j a s) (I (S j)) E) ->
    outcome (for_from i n body a s) (I (i + n)%nat) E.
Proof.
  induction n as [|n IH]; intros i a s Hi Hstep; simpl.
  - unfold ret. simpl. replace (i + 0)%nat with i by lia. exact Hi.
  - apply outcome_bind with (P := I (S i)).
    + apply Hstep; [lia | exact Hi].
    + intros a' s' Ha'. replace (i + S n)%nat with (S i + n)%nat by lia.
      apply IH; [exact Ha' |].
      intros j a2 s2 Hj. apply Hstep. lia.
Qed.

Lemma for_from_app {St A} (body : nat -> A -> M St A) (n m : nat) :
  forall i a s,
    for_from i (n + m) body a s =
    bind (for_from i n body a) (for_from (i + n) m body) s.
Proof.
  induction n as [|n IH]; intros i a s; simpl.
  - unfold bind, ret. replace (i + 0)%nat with i by lia. reflexivity.
  - unfold bind. destruct (body i a s) as [[a'|e] s']; [|reflexivity].
    rewrite IH. unfold bind.
    replace (S i + n)%nat with (i + S n)%nat by lia. reflexivity.
Qed.

(** ** Arrays *)

Lemma np_zeros_wf (k n : nat) : wf_matrix (np_zeros k n).
Proof.
  unfold wf_matrix, np_zeros. simpl.
  apply Forall_forall. intros r Hr.
  apply elem_of_replicate in Hr as [-> _]. apply length_replicate.
Qed.

Lemma np_zeros_nrows (k n : nat) : nrows (np_zeros k n) = k.
Proof. unfold nrows, np_zeros. simpl. apply length_replicate. Qed.

Lemma set_col_ok (A : matrix) (i : nat) (v : list float) :
  (i < ncols A)%nat -> length v = nrows A ->
  set_col A i v =
  Ok (Matrix (ncols A) (zip_with (fun r x => <[i := x]> r) (rows A) v)).
Proof.
  intros Hi Hv. unfold set_col, broadcast_col.
  destruct (decide (i < ncols A)%nat); [|lia].
  destruct (decide (length v = nrows A)); [reflexivity | congruence].
Qed.

Lemma zip_insert_length (i : nat) (rs : list (list float)) :
  forall v, length v = length rs ->
    length (zip_with (fun r x => <[i := x]> r) rs v) = length rs.
Proof. intros v Hv. rewrite length_zip_with. lia. Qed.

Lemma zip_insert_wf (i n : nat) (rs : list (list float)) :
  forall v, Forall (fun r => length r = n) rs ->
    Forall (fun r => length r = n) (zip_with (fun r x => <[i := x]> r) rs v).
Proof.
  induction rs as [|r rs IH]; intros v Hwf; simpl; [constructor|].
  destruct v as [|x v]; [constructor|].
  inversion Hwf; subst. constructor; [by rewrite length_insert | by apply IH].
Qed.

(** Reading the column just written gives the values written. *)
Lemma zip_insert_col_same (i n : nat) (rs : list (list float)) :
  forall v, (i < n)%nat -> Forall (fun r => length r = n) rs ->
    length v = length rs ->
    map (fun r => default float_zero (r !! i))
        (zip_with (fun r x => <[i := x]> r) rs v) = v.
Proof.
  induction rs as [|r rs IH]; intros v Hi Hwf Hv; destruct v as [|x v];
    simpl in *; try discriminate; [reflexivity|].
  inversion Hwf; subst. f_equal.
  - rewrite list_lookup_insert_eq; [reflexivity | lia].
  - apply IH; [lia | assumption | lia].
Qed.

(** Reading another column gives what it held. *)
Lemma zip_insert_col_other (i j : nat) (rs : list (list float)) :
  forall v, i <> j -> length v = length rs ->
    map (fun r => default float_zero (r !! j))
        (zip_with (fun r x => <[i := x]> r) rs v) =
    map (fun r => default float_zero (r !! j)) rs.
Proof.
  induction rs as [|r rs IH]; intros v Hij Hv; destruct v as [|x v];
    simpl in *; try discriminate; [reflexivity|].
  f_equal.
  - by rewrite list_lookup_insert_ne.
  - apply IH; [assumption | lia].
Qed.

(** ** The sampler *)

Section Sampler.
Context `{NumpyLaws}.

Lemma column_draws_length (bounds : bounds_t) (k : nat) :
  forall s, length (fst (column_draws bounds k s)) = length bounds.
Proof.
  induction bounds as [|[lo hi] bounds IH]; intros s; simpl; [reflexivity|].
  destruct (np_random_uniform lo hi k s) as [v s1].
  specialize (IH s1). destruct (column_draws bounds k s1) as [vs s2].
  simpl in *. lia.
Qed.

(** The draw of dimension [i] is a call of [np.random.uniform] with the
    bounds of that dimension, on the generator as the draws of the
    dimensions before it have left it. *)
Lemma column_draws_lookup (bounds : bounds_t) (k : nat) :
  forall s i lo hi,
    bounds !! i = Some (lo, hi) ->
    fst (column_draws bounds k s) !! i =
      Some (fst (np_random_uniform lo hi k (state_before bounds k s i))).
Proof.
  induction bounds as [|[lo0 hi0] bounds IH]; intros s i lo hi Hb;
    simpl in *; [discriminate|].
  destruct (np_random_uniform lo0 hi0 k s) as [v0 s1] eqn:Hu.
  destruct (column_draws bounds k s1) as [vs s2] eqn:Hd.
  destruct i as [|i]; simpl in *.
  - inversion Hb; subst. by rewrite Hu.
  - rewrite <- (IH s1 i lo hi Hb). by rewrite Hd.
Qed.

(** The draws leave the generator in the state after the last of them. *)
Lemma column_draws_state (bounds : bounds_t) (k : nat) :
  forall s,
    snd (column_draws bounds k s) = state_before bounds k s (length bounds).
Proof.
  induction bounds as [|[lo hi] bounds IH]; intros s; simpl; [reflexivity|].
  destruct (np_random_uniform lo hi k s) as [v s1] eqn:Hu.
  specialize (IH s1). destruct (column_draws bounds k s1) as [vs s2].
  simpl in *. exact IH.
Qed.

Lemma finite_ranges_forallb (bounds : bounds_t) :
  Forall (fun b => finite_range b = true) bounds <->
  forallb finite_range bounds = true.
Proof.
  induction bounds as [|b bounds IH]; simpl.
  - split; [reflexivity | constructor].
  - rewrite Forall_cons, andb_true_iff, IH. reflexivity.
Qed.

(** The loop of [random_sample] from column [length pre]: it fills the
    columns that are left when each of them has a finite width, and raises
    [OverflowError] when one has not. *)
Lemma fill_columns (bounds : bounds_t) (k : nat) :
  forall post pre X s done,
    bounds = pre ++ post ->
    nrows X = k -> ncols X = length bounds -> wf_matrix X ->
    length done = length pre ->
    (forall j v, done !! j = Some v -> get_col X j = Ok v) ->
    outcome (for_from (length pre) (length post) (sample_body bounds k) X s)
      (fun X' s' =>
         forallb finite_range post = true /\
         s' = snd (column_draws post k s) /\
         nrows X' = k /\ ncols X' = length bounds /\ wf_matrix X' /\
         (forall j v, (done ++ fst (column_draws post k s)) !! j = Some v ->
                      get_col X' j = Ok v))
      (fun e _ => e = OverflowError /\ forallb finite_range post = false).
Proof.
  induction post as [|[lo hi] post IH];
    intros pre X s done Hb Hrows Hcols Hwf Hlen Hdone; simpl.
  - rewrite app_nil_r. auto 10.
  - unfold finite_range at 1 3. simpl.
    destruct (is_finite (fsub hi lo)) eqn:Hfin.
    + destruct (np_random_uniform lo hi k s) as [v s1] eqn:Hu.
      destruct (column_draws post k s1) as [vs s2] eqn:Hd. simpl.
      assert (Hi : (length pre < ncols X)%nat).
      { rewrite Hcols, Hb, length_app. simpl. lia. }
      assert (Hv : length v = nrows X).
      { rewrite Hrows. pose proof (uniform_length lo hi k s Hfin) as Hl.
        by rewrite Hu in Hl. }
      assert (Hbody : sample_body bounds k (length pre) X s =
        (Ok (Matrix (ncols X)
               (zip_with (fun r x => <[length pre := x]> r) (rows X) v)), s1)).
      { unfold sample_body. rewrite Hb, lookup_app_r, Nat.sub_diag by lia.
        simpl. unfold bind, uniform. rewrite Hfin, Hu. unfold lift.
        by rewrite set_col_ok. }
      rewrite (bind_ok _ _ _ _ _ Hbody).
      set (X1 := Matrix _ _) in *.
      assert (P1 : bounds = (pre ++ [(lo, hi)]) ++ post)
        by (by rewrite <- app_assoc).
      assert (P2 : nrows X1 = k).
      { unfold nrows, X1. simpl. rewrite zip_insert_length; [exact Hrows|].
        exact Hv. }
      assert (P3 : wf_matrix X1).
      { unfold wf_matrix, X1. simpl. by apply zip_insert_wf. }
      assert (P4 : length (done ++ [v]) = length (pre ++ [(lo, hi)])).
      { rewrite !length_app. simpl. lia. }
      assert (P5 : forall j w, (done ++ [v]) !! j = Some w ->
                               get_col X1 j = Ok w).
      { intros j w Hj.
        assert (Hjn : (j < ncols X1)%nat).
        { apply lookup_lt_Some in Hj. rewrite length_app in Hj. simpl in *.
          lia. }
        unfold get_col. destruct (decide (j < ncols X1)%nat); [|lia]. f_equal.
        destruct (decide (j = length pre)) as [->|Hne].
        - rewrite lookup_app_r, Hlen, Nat.sub_diag in Hj by lia.
          inversion Hj; subst w. unfold X1. simpl.
          apply zip_insert_col_same with (n := ncols X); auto.
        - assert (Hjd : done !! j = Some w).
          { rewrite lookup_app_l in Hj; [exact Hj|].
            apply lookup_lt_Some in Hj. rewrite length_app in Hj.
            simpl in Hj. lia. }
          apply Hdone in Hjd. unfold get_col in Hjd.
          destruct (decide (j < ncols X)%nat); [|discriminate].
          inversion Hjd as [Hcol]. unfold X1. simpl.
          rewrite zip_insert_col_other; auto. }
      pose proof (IH (pre ++ [(lo, hi)]) X1 s1 (done ++ [v]) P1 P2 Hcols P3
                    P4 P5) as Hrest.
      rewrite length_app in Hrest. simpl in Hrest.
      replace (length pre + 1)%nat with (S (length pre)) in Hrest by lia.
      rewrite Hd in Hrest. simpl in Hrest.
      eapply outcome_imp; [exact Hrest| |].
      * intros X' s' (? & ? & ? & ? & ? & Hcolumns). repeat split; auto.
        intros j w Hj. apply Hcolumns. by rewrite <- app_assoc.
      * intros e s' HE. exact HE.
    + assert (Hbody : sample_body bounds k (length pre) X s =
        (Raise OverflowError, s)).
      { unfold sample_body. rewrite Hb, lookup_app_r, Nat.sub_diag by lia.
        simpl. unfold bind, uniform. by rewrite Hfin. }
      rewrite (bind_raise _ _ _ _ _ Hbody). simpl. auto.
Qed.

(** What [random_sample] returns and when it raises.  An array that it
    returns has the shape [(k, dim)] and column [i] is the [i]-th draw; it
    raises [OverflowError] when the width of a dimension is not finite. *)
Lemma random_sample_cases (bounds : bounds_t) (k : Z) (s : st) :
  0 <= k ->
  (exists X,
     random_sample bounds (VInt k) s =
       (Ok X, snd (column_draws bounds (Z.to_nat k) s)) /\
     forallb finite_range bounds = true /\
     nrows X = Z.to_nat k /\ ncols X = length bounds /\ wf_matrix X /\
     (forall i v, fst (column_draws bounds (Z.to_nat k) s) !! i = Some v ->
                  get_col X i = Ok v)) \/
  (exists s',
     random_sample bounds (VInt k) s = (Raise OverflowError, s') /\
     forallb finite_range bounds = false).
Proof.
  intros Hk.
  assert (Heq : random_sample bounds (VInt k) s =
                for_from 0 (length bounds) (sample_body bounds (Z.to_nat k))
                  (np_zeros (Z.to_nat k) (length bounds)) s).
  { unfold random_sample, py_count, for_range, bind, lift.
    destruct (Z.ltb_spec k 0) as [?|_]; [lia | reflexivity]. }
  rewrite Heq. clear Heq.
  assert (Hnone : forall (j : nat) (v : list float),
            @nil (list float) !! j = Some v ->
            get_col (np_zeros (Z.to_nat k) (length bounds)) j = Ok v)
    by (intros j v Hj; discriminate).
  pose proof (fill_columns bounds (Z.to_nat k) bounds [] (np_zeros (Z.to_nat k)
                (length bounds)) s [] eq_refl (np_zeros_nrows _ _) eq_refl
                (np_zeros_wf _ _) eq_refl Hnone) as Hrun.
  simpl in Hrun.
  destruct (for_from 0 (length bounds) _ _ s) as [[X|e] s']; simpl in Hrun.
  - left. exists X. destruct Hrun as (Hfin & -> & HX). auto.
  - right. exists s'. destruct Hrun as (-> & Hfin). auto.
Qed.

(** With a finite width in every dimension [random_sample] returns. *)
Lemma random_sample_draws (bounds : bounds_t) (k : Z) (s : st) :
  0 <= k ->
  forallb finite_range bounds = true ->
  exists X,
    random_sample bounds (VInt k) s =
      (Ok X, snd (column_draws bounds (Z.to_nat k) s)) /\
    nrows X = Z.to_nat k /\ ncols X = length bounds /\ wf_matrix X /\
    (forall i v, fst (column_draws bounds (Z.to_nat k) s) !! i = Some v ->
                 get_col X i = Ok v).
Proof.
  intros Hk Hfin.
  destruct (random_sample_cases bounds k s Hk)
    as [(X & Hrun & _ & HX)|(s' & _ & Hno)]; [|congruence].
  exists X. auto.
Qed.

(** An array that [random_sample] has returned. *)
Lemma random_sample_returned (bounds : bounds_t) (k : Z) (s s' : st)
    (X : matrix) :
  0 <= k ->
  random_sample bounds (VInt k) s = (Ok X, s') ->
  s' = snd (column_draws bounds (Z.to_nat k) s) /\
  forallb finite_range bounds = true /\
  nrows X = Z.to_nat k /\ ncols X = length bounds /\ wf_matrix X /\
  (forall i v, fst (column_draws bounds (Z.to_nat k) s) !! i = Some v ->
               get_col X i = Ok v).
Proof.
  intros Hk Hrun.
  destruct (random_sample_cases bounds k s Hk)
    as [(X1 & Hrun1 & HX)|(s1 & Hrun1 & _)]; rewrite Hrun in Hrun1;
    [|discriminate].
  inversion Hrun1; subst. auto.
Qed.

(** The coordinates of an array that [random_sample] has returned lie
    inside ordered bounds. *)
Lemma random_sample_coordinates (bounds : bounds_t) (k : Z) (s s' : st)
    (X : matrix) :
  0 <= k ->
  Forall (fun b => fle (fst b) (snd b) = true) bounds ->
  random_sample bounds (VInt k) s = (Ok X, s') ->
  forall r i lo hi x,
    r ∈ rows X -> bounds !! i = Some (lo, hi) -> r !! i = Some x ->
    fle lo x = true /\ fle x hi = true.
Proof.
  intros Hk Hord Hrun r i lo hi x Hr Hb Hx.
  destruct (random_sample_returned bounds k s s' X Hk Hrun)
    as (_ & Hfin & _ & Hcols & _ & Hdraws).
  pose proof (Hdraws i _ (column_draws_lookup bounds (Z.to_nat k) s i lo hi Hb))
    as Hcol.
  unfold get_col in Hcol. destruct (decide (i < ncols X)%nat); [|discriminate].
  inversion Hcol as [Hmap].
  apply finite_ranges_forallb in Hfin. rewrite Forall_forall in Hfin, Hord.
  assert (Hin : (lo, hi) ∈ bounds) by (eapply list_elem_of_lookup_2; eauto).
  eapply (uniform_range lo hi (Z.to_nat k)).
  - exact (Hfin (lo, hi) Hin).
  - exact (Hord (lo, hi) Hin).
  - rewrite <- Hmap. apply list_elem_of_fmap. exists r. by rewrite Hx.
Qed.

(** C7. For bounds with lower <= upper in every dimension and every
    k >= 0: when the width upper - lower of every dimension is finite,
    [random_sample(bounds, k)] returns an array of shape exactly [(k, dim)];
    every row has coordinate [i] inside [[bounds[i,0], bounds[i,1]]]; and
    each dimension is drawn by itself: column [i] is the result of one call
    of [np.random.uniform] with the bounds of dimension [i], on the
    generator as the calls for the dimensions before [i] have left it, and
    the generator is left as the last call leaves it.  When the width of
    some dimension is not finite, [random_sample] raises [OverflowError]. *)
Theorem random_sample_within_bounds (bounds : bounds_t) (k : Z) (s : st) :
  0 <= k ->
  Forall (fun b => fle (fst b) (snd b) = true) bounds ->
  (Forall (fun b => finite_range b = true) bounds ->
   exists X,
     random_sample bounds (VInt k) s =
       (Ok X, state_before bounds (Z.to_nat k) s (length bounds)) /\
     nrows X = Z.to_nat k /\ ncols X = length bounds /\ wf_matrix X /\
     (forall r i lo hi x,
         r ∈ rows X -> bounds !! i = Some (lo, hi) -> r !! i = Some x ->
         fle lo x = true /\ fle x hi = true) /\
     (forall i lo hi,
         bounds !! i = Some (lo, hi) ->
         get_col X i =
           Ok (fst (np_random_uniform lo hi (Z.to_nat k)
                      (state_before bounds (Z.to_nat k) s i))))) /\
  (Exists (fun b => finite_range b = false) bounds ->
   exists s', random_sample bounds (VInt k) s = (Raise OverflowError, s')).
Proof.
  intros Hk Hord. split.
  - intros Hfin. apply finite_ranges_forallb in Hfin.
    destruct (random_sample_draws bounds k s Hk Hfin)
      as (X & Hrun & Hrows & Hcols & Hwf & Hdraws).
    exists X. rewrite <- column_draws_state.
    split; [exact Hrun|]. do 3 (split; [assumption|]). split.
    + exact (random_sample_coordinates bounds k s _ X Hk Hord Hrun).
    + intros i lo hi Hb. apply Hdraws. by apply column_draws_lookup.
  - intros Hinf.
    destruct (random_sample_cases bounds k s Hk)
      as [(X & _ & Hyes & _)|(s' & Hrun & _)]; [|by exists s'].
    apply finite_ranges_forallb in Hyes. rewrite Forall_forall in Hyes.
    apply Exists_exists in Hinf as (b & Hb & Hno).
    rewrite (Hyes b Hb) in Hno. discriminate.
Qed.

End Sampler.

(** ** The normaliser *)

Section Normalizer.
Context `{Collaborators}.

Lemma get_col0 (A : matrix) :
  (1 <= ncols A)%nat -> get_col A 0 = Ok (column0 A).
Proof.
  intros Hc. unfold get_col. destruct (decide (0 < ncols A)%nat); [|lia].
  reflexivity.
Qed.

Lemma fresh_loc_unused {V} (h : gmap loc V) : h !! fresh (dom h) = None.
Proof. apply not_elem_of_dom. apply is_fresh. Qed.

(** What [normalize] does on the heap: it allocates one array, writes only
    that array, and the array holds [Yv] with column 0 replaced when the
    guard of line 198 holds. *)
Lemma normalize_heap (self : BO) (Y : loc) (h : gmap loc matrix)
    (Yv : matrix) (flag : pyval) :
  h !! Y = Some Yv ->
  wf_matrix Yv ->
  (1 <= ncols Yv)%nat ->
  options self !! "normalize_Y" = Some flag ->
  let Y_ := fresh (dom h) in
  let Yv' :=
    if truthy flag && flt float_zero (np_std (column0 Yv))
    then Matrix (ncols Yv)
           (zip_with (fun r x => <[0%nat := x]> r) (rows Yv)
                     (standardized (column0 Yv)))
    else Yv in
  normalize self Y h = (Ok Y_, <[Y_ := Yv']> h).
Proof.
  intros HY Hwf Hc Hflag Y_ Yv'.
  assert (Hfresh : h !! Y_ = None) by apply fresh_loc_unused.
  assert (Hne : Y_ <> Y) by congruence.
  assert (HY1 : <[Y_ := Yv]> h !! Y = Some Yv) by by rewrite lookup_insert_ne.
  unfold normalize, bind, load, alloc, lift, getitem, store, ret.
  rewrite HY, Hflag. fold Y_. subst Yv'.
  destruct (truthy flag); simpl.
  - rewrite HY1, (get_col0 Yv Hc).
    destruct (flt float_zero (np_std (column0 Yv))).
    + rewrite HY1, (get_col0 Yv Hc), lookup_insert_eq.
      rewrite set_col_ok.
      * by rewrite insert_insert_eq.
      * lia.
      * unfold nrows, column0. by rewrite !length_map.
    + reflexivity.
  - reflexivity.
Qed.

Lemma standardized_length (col : list float) :
  length (standardized col) = length col.
Proof. unfold standardized. apply length_map. Qed.


(** The array value [normalize] computes does not depend on the heap. *)
Lemma normalize_value_ok (self : BO) (Yv : matrix) (flag : pyval) :
  wf_matrix Yv ->
  (1 <= ncols Yv)%nat ->
  options self !! "normalize_Y" = Some flag ->
  exists Yv', normalize_value self Yv = Ok Yv' /\ nrows Yv' = nrows Yv.
Proof.
  intros Hwf Hc Hflag. unfold normalize_value.
  pose proof (normalize_heap self 1%positive {[1%positive := Yv]} Yv flag
                ltac:(apply lookup_singleton_eq) Hwf Hc Hflag) as Hrun.
  simpl in Hrun. rewrite Hrun, lookup_insert_eq. eexists. split; [reflexivity|].
  destruct (truthy flag && flt float_zero (np_std (column0 Yv))); [|done].
  unfold nrows. simpl. apply zip_insert_length.
  rewrite standardized_length. unfold column0. apply length_map.
Qed.

End Normalizer.

(** ** The hyperparameter fitter *)

Section Fitter.
Context `{Collaborators}.

Lemma exn_interrupt_dec (e : exn) :
  e = KeyboardInterrupt \/ e <> KeyboardInterrupt.
Proof. destruct e; auto; right; discriminate. Qed.

(** The nested handlers of [restart_trial] are the single [try] statement
    of the source: a trial returns the [val] of its body, the interrupt
    passes, and any other exception gives [val = inf]. *)
Lemma restart_trial_cases (obj : objective_fn) (x : option (list float))
    (s : st) :
  match trial_body obj s with
  | (Ok (x', v), s') => restart_trial obj x s = (Ok (Some x', v), s')
  | (Raise KeyboardInterrupt, s') =>
      restart_trial obj x s = (Raise KeyboardInterrupt, s')
  | (Raise _, s') =>
      exists x', restart_trial obj x s = (Ok (x', float_inf), s')
  end.
Proof.
  unfold trial_body, restart_trial, try_except, bind, get_free_state, lift,
    ret.
  destruct (gp_randomize s) as [[[]|e1] s1].
  - destruct (gp_optimize s1) as [[[]|e2] s2].
    + destruct (obj (free_state s2)) as [[v g]|e3]; simpl; [reflexivity|].
      destruct e3; eauto.
    + destruct e2; eauto.
  - destruct e1; eauto.
Qed.

Lemma restart_trial_failed (obj : objective_fn) (x : option (list float))
    (s s' : st) (e : exn) :
  trial_body obj s = (Raise e, s') ->
  e <> KeyboardInterrupt ->
  exists x', restart_trial obj x s = (Ok (x', float_inf), s').
Proof.
  intros Hbody He. pose proof (restart_trial_cases obj x s) as Ht.
  rewrite Hbody in Ht. destruct e; try exact Ht. congruence.
Qed.

(** The [val] of a trial that returns is the objective at its [x]. *)
Lemma trial_body_ok (obj : objective_fn) (s s' : st) (x : list float)
    (v : float) :
  trial_body obj s = (Ok (x, v), s') -> exists g, obj x = Ok (v, g).
Proof.
  unfold trial_body, bind, get_free_state, lift, ret.
  destruct (gp_randomize s) as [[[]|e1] s1]; [|discriminate].
  destruct (gp_optimize s1) as [[[]|e2] s2]; [|discriminate].
  destruct (obj (free_state s2)) as [[v' g]|e3] eqn:Hobj; [|discriminate].
  simpl. intros [= <- <- <-]. eauto.
Qed.

(** A trial that raises leaves [par_min] and [val_min] as they were and the
    loop goes on. *)
Lemma restart_step_failed (obj : objective_fn) (i : nat)
    (par : list float) (val : float) (x : option (list float))
    (s s' : st) (e : exn) :
  trial_body obj s = (Raise e, s') ->
  e <> KeyboardInterrupt ->
  exists x', restart_step obj i (par, val, x) s = (Ok (par, val, x'), s').
Proof.
  intros Hbody He.
  destruct (restart_trial_failed obj x s s' e Hbody He) as [x' Hx].
  exists x'. unfold restart_step, restart_update. unfold bind at 1.
  rewrite Hx. simpl. unfold bind, ret. rewrite flt_inf_l. reflexivity.
Qed.

(** One restart either keeps the incumbent or replaces it by a parameter
    vector whose objective value is strictly smaller; only the interrupt
    leaves the loop. *)
Lemma restart_step_outcome (obj : objective_fn) (i : nat)
    (par : list float) (val : float) (x : option (list float)) (s : st) :
  outcome (restart_step obj i (par, val, x) s)
    (fun acc' _ =>
       (fst (fst acc') = par /\ snd (fst acc') = val) \/
       (exists g, obj (fst (fst acc')) = Ok (snd (fst acc'), g) /\
                  flt (snd (fst acc')) val = true))
    (fun e _ => e = KeyboardInterrupt).
Proof.
  destruct (trial_body obj s) as [[[x1 v]|e] s1] eqn:Hbody.
  - pose proof (restart_trial_cases obj x s) as Ht. rewrite Hbody in Ht.
    destruct (trial_body_ok obj s s1 x1 v Hbody) as [g Hobj].
    unfold restart_step, restart_update. unfold bind at 1. rewrite Ht. simpl.
    unfold bind, ret.
    destruct (flt v val) eqn:Hlt; simpl; [right; eauto | left; auto].
  - destruct (exn_interrupt_dec e) as [->|He].
    + pose proof (restart_trial_cases obj x s) as Ht. rewrite Hbody in Ht.
      unfold restart_step. unfold bind at 1. rewrite Ht. reflexivity.
    + destruct (restart_step_failed obj i par val x s s1 e Hbody He)
        as [x' ->].
      simpl. left. auto.
Qed.

(** The loop of restarts under an invariant of the incumbent that every
    strict improvement preserves. *)
Lemma restart_loop (obj : objective_fn) (P : list float -> float -> Prop) :
  (forall par val par' val' g,
      P par val -> obj par' = Ok (val', g) -> flt val' val = true ->
      P par' val') ->
  forall n i par val x s,
    P par val ->
    outcome (for_from i n (restart_step obj) (par, val, x) s)
      (fun acc _ => P (fst (fst acc)) (snd (fst acc)))
      (fun e _ => e = KeyboardInterrupt).
Proof.
  intros Hstep n i par val x s HP.
  pose proof (for_from_rule (restart_step obj)
    (fun _ acc (_ : st) => P (fst (fst acc)) (snd (fst acc)))
    (fun e _ => e = KeyboardInterrupt) n i (par, val, x) s HP) as Hloop.
  apply Hloop. clear Hloop.
  intros j [[par1 val1] x1] s1 _ HP1. simpl in HP1.
  pose proof (restart_step_outcome obj j par1 val1 x1 s1) as Hout.
  unfold outcome in *.
  destruct (restart_step obj j (par1, val1, x1) s1) as [[acc|e] s2]; auto.
  destruct Hout as [[-> ->]|(g & Hobj & Hlt)]; eauto.
Qed.

(** [optimize_restarts] once the entry objective is known: the restarts
    run from the entry state as incumbent and [set_state] installs the
    incumbent they leave. *)
Lemma optimize_restarts_unfold (restarts : Z) (s s0 : st) (v0 : float)
    (g0 : list float) :
  recompile_if_needed s = (Ok tt, s0) ->
  gp_objective s0 (free_state s0) = Ok (v0, g0) ->
  optimize_restarts (VInt restarts) s =
  bind (for_from 0 (Z.to_nat restarts) (restart_step (gp_objective s0))
          (free_state s0, v0, None))
       (fun acc => set_state (fst (fst acc))) s0.
Proof.
  intros Hc Hobj.
  unfold optimize_restarts, bind, get_state, get_free_state, lift, py_range,
    for_range.
  rewrite Hc. simpl. rewrite Hobj. reflexivity.
Qed.

Lemma optimize_restarts_run (P : list float -> float -> Prop)
    (restarts : Z) (s s0 : st) (v0 : float) (g0 : list float) :
  recompile_if_needed s = (Ok tt, s0) ->
  gp_objective s0 (free_state s0) = Ok (v0, g0) ->
  P (free_state s0) v0 ->
  (forall par val par' val' g,
      P par val -> gp_objective s0 par' = Ok (val', g) ->
      flt val' val = true -> P par' val') ->
  outcome (optimize_restarts (VInt restarts) s)
    (fun _ s' => exists v1, P (free_state s') v1)
    (fun e _ => e = KeyboardInterrupt).
Proof.
  intros Hc Hobj HP Hstep.
  rewrite (optimize_restarts_unfold restarts s s0 v0 g0 Hc Hobj).
  eapply outcome_bind.
  - apply (restart_loop (gp_objective s0) P Hstep); exact HP.
  - intros [[par val] x] s1 Hacc. simpl in *. eauto.
Qed.

(** C2. For every restart count, [optimize_restarts] either is interrupted
    or leaves the model with parameters whose objective value is the entry
    value or strictly below it; with no restart to run the parameters are
    those at entry; and a restart whose trial raises leaves
    [par_min]/[val_min] as they were and does not abort the fit. *)
Theorem optimize_restarts_never_worse (restarts : Z) (s s0 : st)
    (v0 : float) (g0 : list float) :
  recompile_if_needed s = (Ok tt, s0) ->
  free_state s0 = free_state s ->
  gp_objective s0 (free_state s) = Ok (v0, g0) ->
  (fst (optimize_restarts (VInt restarts) s) = Raise KeyboardInterrupt \/
   exists s' v1 g1,
     optimize_restarts (VInt restarts) s = (Ok tt, s') /\
     gp_objective s0 (free_state s') = Ok (v1, g1) /\
     (v1 = v0 \/ flt v1 v0 = true)) /\
  (restarts <= 0 ->
   exists s',
     optimize_restarts (VInt restarts) s = (Ok tt, s') /\
     free_state s' = free_state s) /\
  (forall obj i par_min val_min x s1 e s2,
     trial_body obj s1 = (Raise e, s2) ->
     e <> KeyboardInterrupt ->
     exists x',
       restart_trial obj x s1 = (Ok (x', float_inf), s2) /\
       restart_step obj i (par_min, val_min, x) s1 =
       (Ok (par_min, val_min, x'), s2)).
Proof.
  intros Hc Hfree Hobj. rewrite <- Hfree in Hobj.
  split; [|split].
  - assert (Hrun : outcome (optimize_restarts (VInt restarts) s)
      (fun _ s' => exists v1,
         (exists g, gp_objective s0 (free_state s') = Ok (v1, g)) /\
         (v1 = v0 \/ flt v1 v0 = true))
      (fun e _ => e = KeyboardInterrupt)).
    { apply (optimize_restarts_run
        (fun par val => (exists g, gp_objective s0 par = Ok (val, g)) /\
                        (val = v0 \/ flt val v0 = true))
        restarts s s0 v0 g0 Hc Hobj).
      - split; [by exists g0 | by left].
      - intros par val par' val' g [_ Hval] Hg Hlt.
        split; [by exists g|].
        right. destruct Hval as [->|Hval]; [exact Hlt|].
        by apply flt_trans with val. }
    unfold outcome in Hrun.
    destruct (optimize_restarts (VInt restarts) s) as [[[]|e] s'].
    + right. destruct Hrun as (v1 & [g1 Hg1] & Hv1).
      exists s', v1, g1. auto.
    + left. simpl. by f_equal.
  - intros Hr.
    rewrite (optimize_restarts_unfold restarts s s0 v0 g0 Hc Hobj).
    replace (Z.to_nat restarts) with 0%nat by lia.
    eexists. split; [reflexivity|]. simpl. exact Hfree.
  - intros obj i par val x s1 e s2 Hbody He.
    destruct (restart_trial_failed obj x s1 s2 e Hbody He) as [x' Hx].
    exists x'. split; [exact Hx|].
    unfold restart_step, restart_update. unfold bind at 1.
    rewrite Hx. simpl. unfold bind, ret. rewrite flt_inf_l. reflexivity.
Qed.

End Fitter.

(** ** The acquisition optimiser *)

Section Acquisition.
Context `{NumpyLaws}.

(** The three ways a trial of [get_suggestion] ends, once its initial point
    is drawn. *)
Lemma suggestion_step_cases (self : BO) (batch_size : pyval)
    (bounds_tiled : bounds_t) (j : nat) (inc : option (matrix * float))
    (s s1 : st) (X_init : matrix) :
  random_sample (bounds self) batch_size s = (Ok X_init, s1) ->
  match solver_call self X_init bounds_tiled s1 with
  | (Ok (X0, y0, _), s2) =>
      suggestion_step self batch_size bounds_tiled j inc s =
      (Ok (suggestion_update inc X0 y0), s2)
  | (Raise KeyboardInterrupt, s2) =>
      suggestion_step self batch_size bounds_tiled j inc s =
      (Raise KeyboardInterrupt, s2)
  | (Raise _, s2) =>
      suggestion_step self batch_size bounds_tiled j inc s = (Ok inc, s2)
  end.
Proof.
  intros Hsample. unfold suggestion_step.
  rewrite (bind_ok _ _ _ _ _ Hsample). unfold try_except, bind, ret.
  destruct (solver_call self X_init bounds_tiled s1) as [[[[X0 y0] status]|e] s2];
    [reflexivity|].
  destruct e; reflexivity.
Qed.

Lemma suggestion_step_failed (self : BO) (batch_size : pyval)
    (bounds_tiled : bounds_t) (j : nat) (inc : option (matrix * float))
    (s s1 s2 : st) (X_init : matrix) (e : exn) :
  random_sample (bounds self) batch_size s = (Ok X_init, s1) ->
  solver_call self X_init bounds_tiled s1 = (Raise e, s2) ->
  e <> KeyboardInterrupt ->
  suggestion_step self batch_size bounds_tiled j inc s = (Ok inc, s2).
Proof.
  intros Hsample Hcall He.
  pose proof (suggestion_step_cases self batch_size bounds_tiled j inc s s1
                X_init Hsample) as Hc.
  rewrite Hcall in Hc. destruct e; try exact Hc. congruence.
Qed.

Lemma suggestion_update_is_Some (inc : option (matrix * float))
    (X0 : matrix) (y0 : float) :
  is_Some (suggestion_update inc X0 y0).
Proof.
  unfold suggestion_update. destruct inc as [[X y]|]; [|eauto].
  destruct (flt y0 y); eauto.
Qed.

(** For a count that is an int and not negative, [np.tile] gives that many
    copies of the bounds. *)
Lemma np_tile_nil (reps : nat) : np_tile [] reps = [].
Proof.
  unfold np_tile. induction reps as [|reps IH]; simpl; [reflexivity|exact IH].
Qed.

Lemma tile_bounds_count (bounds : bounds_t) (b : Z) :
  0 <= b ->
  tile_bounds bounds (VInt b) = Ok (np_tile bounds (Z.to_nat b)).
Proof.
  intros Hb. unfold tile_bounds. simpl.
  destruct (decide (b = 1)) as [->|_].
  { unfold np_tile. simpl. by rewrite app_nil_r. }
  destruct (decide (bounds = [])) as [->|_].
  { by rewrite np_tile_nil. }
  destruct (Z.ltb_spec b 0) as [?|_]; [lia | reflexivity].
Qed.

Lemma get_suggestion_unfold (self : BO) (b n : Z) (s : st) :
  0 <= b ->
  options self !! "opt_restarts" = Some (VInt n) ->
  get_suggestion self (VInt b) s =
  bind (for_from 0 (Z.to_nat n)
          (suggestion_step self (VInt b)
             (np_tile (bounds self) (Z.to_nat b))) None)
       (fun inc =>
          match inc with
          | Some (X, _) => ret X
          | None => raise AssertionError
          end) s.
Proof.
  intros Hb Hn.
  unfold get_suggestion. rewrite (tile_bounds_count _ _ Hb).
  unfold py_range, getitem, for_range. simpl.
  rewrite Hn. reflexivity.
Qed.

(** The loop of [get_suggestion] and its trace: the loop returns the best
    candidate of the outcomes of its trials, or is left by the exception
    that ends the trace. *)
Lemma suggestion_loop_trace (self : BO) (batch_size : pyval)
    (bounds_tiled : bounds_t) (n : nat) :
  forall i inc s outs fin s',
    run_trials self batch_size bounds_tiled n s = (outs, fin, s') ->
    for_from i n (suggestion_step self batch_size bounds_tiled) inc s =
    match fin with
    | Completed => (Ok (best_candidate inc outs), s')
    | Aborted e => (Raise e, s')
    end.
Proof.
  induction n as [|n IH]; intros i inc s outs fin s' Hrun; simpl in *.
  - by inversion Hrun.
  - destruct (random_sample (bounds self) batch_size s) as [[X_init|e] s1]
      eqn:Hs.
    + pose proof (suggestion_step_cases self batch_size bounds_tiled i inc s
                    s1 X_init Hs) as Hc.
      destruct (solver_call self X_init bounds_tiled s1)
        as [[[[X0 y0] status]|e] s2].
      * rewrite (bind_ok _ _ _ _ _ Hc).
        destruct (run_trials self batch_size bounds_tiled n s2)
          as [[rs fin1] s3] eqn:Hrest.
        inversion Hrun; subst.
        rewrite (IH (S i) (suggestion_update inc X0 y0) s2 rs fin s' Hrest).
        reflexivity.
      * destruct e;
          try (rewrite (bind_ok _ _ _ _ _ Hc);
               destruct (run_trials self batch_size bounds_tiled n s2)
                 as [[rs fin1] s3] eqn:Hrest;
               inversion Hrun; subst;
               rewrite (IH (S i) inc s2 rs fin s' Hrest); reflexivity).
        rewrite (bind_raise _ _ _ _ _ Hc). by inversion Hrun.
    + assert (Hstep : suggestion_step self batch_size bounds_tiled i inc s =
                      (Raise e, s1)).
      { unfold suggestion_step. by rewrite (bind_raise _ _ _ _ _ Hs). }
      rewrite (bind_raise _ _ _ _ _ Hstep). by inversion Hrun.
Qed.

(** A trace whose loop was not left has one outcome for each trial. *)
Lemma run_trials_completed (self : BO) (batch_size : pyval)
    (bounds_tiled : bounds_t) (n : nat) :
  forall s outs s',
    run_trials self batch_size bounds_tiled n s = (outs, Completed, s') ->
    length outs = n.
Proof.
  induction n as [|n IH]; intros s outs s' Hrun; simpl in *.
  - by inversion Hrun.
  - destruct (random_sample (bounds self) batch_size s) as [[X_init|e] s1];
      [|discriminate].
    destruct (solver_call self X_init bounds_tiled s1) as [[r|e] s2].
    + destruct (run_trials self batch_size bounds_tiled n s2)
        as [[rs fin1] s3] eqn:Hrest.
      inversion Hrun; subst. simpl. f_equal. eauto.
    + destruct e; try discriminate;
        destruct (run_trials self batch_size bounds_tiled n s2)
          as [[rs fin1] s3] eqn:Hrest;
        inversion Hrun; subst; simpl; f_equal; eauto.
Qed.

(** Failed trials give no candidate: the best candidate is that of the
    solutions alone. *)
Lemma best_candidate_solutions (outs : list (res (matrix * float * pyval))) :
  forall inc,
    best_candidate inc outs = best_candidate inc (List.filter is_ok outs).
Proof.
  induction outs as [|[[[X0 y0] status]|e] outs IH]; intros inc; simpl; auto.
Qed.

(** With no solution the incumbent is kept. *)
Lemma best_candidate_all_failed (outs : list (res (matrix * float * pyval))) :
  forall inc,
    forallb (fun r => negb (is_ok r)) outs = true ->
    best_candidate inc outs = inc.
Proof.
  induction outs as [|[[[X0 y0] status]|e] outs IH]; intros inc Hall;
    simpl in *; [reflexivity | discriminate | auto].
Qed.

(** The best candidate is the incumbent or one of the solutions. *)
Lemma best_candidate_is_solution
    (outs : list (res (matrix * float * pyval))) :
  forall inc X y,
    best_candidate inc outs = Some (X, y) ->
    inc = Some (X, y) \/ exists status, Ok (X, y, status) ∈ outs.
Proof.
  induction outs as [|[[[X0 y0] status]|e] outs IH]; intros inc X y Hbest;
    simpl in *.
  - by left.
  - apply IH in Hbest. destruct Hbest as [Hinc|[st0 Hin]].
    + destruct inc as [[X1 y1]|]; [destruct (flt y0 y1)|];
        inversion Hinc; subst.
      * right. exists status. apply list_elem_of_here.
      * by left.
      * right. exists status. apply list_elem_of_here.
    + right. exists st0. by apply list_elem_of_further.
  - apply IH in Hbest. destruct Hbest as [Hinc|[st0 Hin]]; [by left|].
    right. exists st0. by apply list_elem_of_further.
Qed.

(** An incumbent that is set stays set, and a solution sets it. *)
Lemma best_candidate_is_Some (outs : list (res (matrix * float * pyval))) :
  forall inc,
    is_Some inc \/ existsb is_ok outs = true ->
    is_Some (best_candidate inc outs).
Proof.
  induction outs as [|[[[X0 y0] status]|e] outs IH]; intros inc Hsome;
    simpl in *.
  - destruct Hsome as [Hinc|?]; [exact Hinc | discriminate].
  - apply IH. left. destruct inc as [[X1 y1]|]; [destruct (flt y0 y1)|];
      eauto.
  - apply IH. exact Hsome.
Qed.

(** C9. With [opt_restarts = 0], [get_suggestion] never returns a batch,
    whatever the model state: no trial runs, [X] stays unset and the
    assertion of line 126 fails, although no trial failed. *)
Theorem get_suggestion_zero_restarts (self : BO) (s : st) :
  options self !! "opt_restarts" = Some (VInt 0) ->
  (forall batch_size : pyval,
      is_ok (fst (get_suggestion self batch_size s)) = false) /\
  (forall b : Z,
      0 <= b ->
      get_suggestion self (VInt b) s = (Raise AssertionError, s)).
Proof.
  intros Hn. split.
  - intros batch_size. unfold get_suggestion, getitem, for_range.
    unfold bind at 1. unfold lift at 1.
    destruct (tile_bounds (bounds self) batch_size) as [bounds_tiled|e];
      [|reflexivity].
    rewrite Hn. reflexivity.
  - intros b Hb. rewrite (get_suggestion_unfold self b 0 s Hb Hn).
    reflexivity.
Qed.

(** C4. With [opt_restarts >= 1], take the trials of a call of
    [get_suggestion]: the outcomes of its solver calls, in order.  If every
    trial fails (its solver call raises), [get_suggestion] returns no batch,
    and when all the trials ran it raises the assertion error.  When all
    the trials ran and one of them succeeded, the failed ones are not fatal:
    [get_suggestion] returns a batch, which is the solution of a successful
    trial.  Failed trials contribute no candidate: the result is the one
    that the successful trials alone give, and a trial whose solver call
    raises leaves the incumbent as it was and the loop goes on.  An
    exception that leaves the loop (of the sampler, or an interrupt) is
    raised by [get_suggestion]. *)
Theorem get_suggestion_failed_trials (self : BO) (b n : Z) (s s' : st)
    (outs : list (res (matrix * float * pyval))) (fin : run_end) :
  0 <= b ->
  1 <= n ->
  options self !! "opt_restarts" = Some (VInt n) ->
  run_trials self (VInt b) (np_tile (bounds self) (Z.to_nat b))
             (Z.to_nat n) s = (outs, fin, s') ->
  (forallb (fun r => negb (is_ok r)) outs = true ->
     is_ok (fst (get_suggestion self (VInt b) s)) = false /\
     (fin = Completed ->
        length outs = Z.to_nat n /\
        get_suggestion self (VInt b) s = (Raise AssertionError, s'))) /\
  (fin = Completed ->
   existsb is_ok outs = true ->
     exists X y status,
       get_suggestion self (VInt b) s = (Ok X, s') /\
       Ok (X, y, status) ∈ outs) /\
  (fin = Completed ->
     get_suggestion self (VInt b) s =
       match best_candidate None (List.filter is_ok outs) with
       | Some (X, _) => (Ok X, s')
       | None => (Raise AssertionError, s')
       end) /\
  (forall e, fin = Aborted e ->
     get_suggestion self (VInt b) s = (Raise e, s')) /\
  (forall bounds_tiled j inc s0 X_init s1 e s2,
      random_sample (bounds self) (VInt b) s0 = (Ok X_init, s1) ->
      solver_call self X_init bounds_tiled s1 = (Raise e, s2) ->
      e <> KeyboardInterrupt ->
      suggestion_step self (VInt b) bounds_tiled j inc s0 = (Ok inc, s2)).
Proof.
  intros Hb Hn1 Hn Hrun.
  assert (Hget : get_suggestion self (VInt b) s =
    match fin with
    | Completed =>
        match best_candidate None outs with
        | Some (X, _) => (Ok X, s')
        | None => (Raise AssertionError, s')
        end
    | Aborted e => (Raise e, s')
    end).
  { rewrite (get_suggestion_unfold self b n s Hb Hn). unfold bind.
    rewrite (suggestion_loop_trace self (VInt b) _ _ 0%nat None s outs fin s'
               Hrun).
    destruct fin as [|e]; [|reflexivity].
    destruct (best_candidate None outs) as [[X y]|]; reflexivity. }
  split; [|split; [|split; [|split]]].
  - intros Hall. rewrite Hget. split.
    + destruct fin as [|e]; [|reflexivity].
      by rewrite (best_candidate_all_failed outs None Hall).
    + intros ->. split.
      * exact (run_trials_completed self (VInt b) _ _ s outs s' Hrun).
      * by rewrite (best_candidate_all_failed outs None Hall).
  - intros -> Hone. rewrite Hget.
    destruct (best_candidate_is_Some outs None (or_intror Hone))
      as [[X y] Hbest].
    rewrite Hbest.
    destruct (best_candidate_is_solution outs None X y Hbest)
      as [?|[status Hin]]; [discriminate|].
    exists X, y, status. auto.
  - intros ->. rewrite Hget. by rewrite <- best_candidate_solutions.
  - intros e ->. exact Hget.
  - intros bounds_tiled j inc s0 X_init s1 e s2.
    apply suggestion_step_failed.
Qed.

End Acquisition.

(** ** The two reducers compare with strict [<] *)

Section BestOfN.
Context `{Collaborators}.



End BestOfN.

(** ** The constructor *)

Section Constructor.
Context `{Collaborators}.

Lemma bind_lift {St A B} (r : res A) (f : A -> M St B) (s : St) :
  bind (lift r) f s =
  match r with
  | Ok a => f a s
  | Raise e => (Raise e, s)
  end.
Proof. unfold bind, lift. destruct r; reflexivity. Qed.

Lemma bind_getitem_ref {B} (l : loc) (k : string) (f : pyval -> M dheap B)
    (h : dheap) (d : gmap string pyval) :
  h !! l = Some d ->
  bind (getitem_ref l k) f h =
  match d !! k with
  | Some v => f v h
  | None => (Raise KeyError, h)
  end.
Proof.
  intros Hl. unfold getitem_ref, bind, load, lift, getitem. rewrite Hl.
  destruct (d !! k); reflexivity.
Qed.

(** Lines 19-20 leave the caller's dictionary with a [mean_function]
    entry. *)
Lemma bind_mean_default {B} (l : loc) (k : M dheap B) (h : dheap)
    (d : gmap string pyval) :
  h !! l = Some d ->
  bind (contains_ref l "mean_function")
       (fun present : bool =>
          bind (if present then ret tt
                else setitem_ref l "mean_function" VNone)
               (fun _ => k)) h =
  k (<[l := with_mean_default d]> h).
Proof.
  intros Hl.
  unfold contains_ref, setitem_ref, bind, load, store, ret,
    with_mean_default.
  rewrite Hl. destruct (d !! "mean_function") as [v|] eqn:Hmf.
  - rewrite bool_decide_eq_true_2 by eauto. by rewrite insert_id.
  - rewrite bool_decide_eq_false_2 by (intros [? ?]; discriminate).
    by rewrite Hl.
Qed.

Lemma bind_dict_copy {B} (l : loc) (f : loc -> M dheap B) (h : dheap)
    (d : gmap string pyval) :
  h !! l = Some d ->
  bind (dict_copy l) f h = f (fresh (dom h)) (<[fresh (dom h) := d]> h).
Proof.
  intros Hl. unfold dict_copy, bind, load, alloc. by rewrite Hl.
Qed.

Lemma with_mean_default_other (d : gmap string pyval) (k : string) :
  k <> "mean_function" -> with_mean_default d !! k = d !! k.
Proof.
  intros Hk. unfold with_mean_default.
  destruct (d !! "mean_function"); [reflexivity|].
  by rewrite lookup_insert_ne.
Qed.

Lemma with_mean_default_mean (d : gmap string pyval) :
  with_mean_default d !! "mean_function" =
  Some (default VNone (d !! "mean_function")).
Proof.
  unfold with_mean_default.
  destruct (d !! "mean_function") as [v|] eqn:Hmf; simpl; [exact Hmf|].
  apply lookup_insert_eq.
Qed.

(** [__init__] as a cascade of the lookups it makes, on the caller's
    dictionary as line 20 leaves it. *)
Lemma BO_init_eq (caller : loc) (h : dheap) (d : gmap string pyval)
    (ob : objective) :
  h !! caller = Some d ->
  d !! "objective" = Some (VObjective ob) ->
  let d' := with_mean_default d in
  let h1 := <[caller := d']> h in
  let copy := fresh (dom h1) in
  let n := length (objective_bounds ob) in
  BO_init caller h =
  match d !! "kernel" with
  | None => (Raise KeyError, h1)
  | Some kern =>
  match GPR_init (np_zeros 0 n) (np_zeros 0 n) kern
                 (default VNone (d !! "mean_function")) with
  | Raise e => (Raise e, h1)
  | Ok lik =>
  match d !! "iterations" with
  | None => (Raise KeyError, h1)
  | Some its =>
  match d !! "batch_size" with
  | None => (Raise KeyError, h1)
  | Some bs =>
  match d !! "initial_size" with
  | None => (Raise KeyError, h1)
  | Some isz =>
  match d !! "hessian" with
  | None => (Raise KeyError, h1)
  | Some hess =>
  match d !! "noise" with
  | None => (Raise KeyError, <[copy := d']> h1)
  | Some noise =>
      (Ok (MkBO (objective_bounds ob) n its bs isz hess d' copy
                (fix_noise lik noise)),
       <[copy := d']> h1)
  end end end end end end end.
Proof.
  intros Hl Hobj d' h1 copy n.
  assert (Hl1 : h1 !! caller = Some d') by apply lookup_insert_eq.
  assert (Hc : <[copy := d']> h1 !! copy = Some d') by apply lookup_insert_eq.
  unfold BO_init.
  rewrite (bind_getitem_ref _ _ _ _ _ Hl), Hobj, bind_lift. simpl.
  rewrite (bind_mean_default _ _ _ _ Hl). fold d' h1.
  rewrite (bind_getitem_ref _ _ _ _ _ Hl1).
  unfold d' at 1. rewrite with_mean_default_other by done.
  destruct (d !! "kernel") as [kern|]; [|reflexivity].
  rewrite (bind_getitem_ref _ _ _ _ _ Hl1).
  unfold d' at 1. rewrite with_mean_default_mean, bind_lift. fold n.
  destruct (GPR_init _ _ kern _) as [lik|e]; [|reflexivity].
  rewrite (bind_getitem_ref _ _ _ _ _ Hl1).
  unfold d' at 1. rewrite with_mean_default_other by done.
  destruct (d !! "iterations") as [its|]; [|reflexivity].
  rewrite (bind_getitem_ref _ _ _ _ _ Hl1).
  unfold d' at 1. rewrite with_mean_default_other by done.
  destruct (d !! "batch_size") as [bs|]; [|reflexivity].
  rewrite (bind_getitem_ref _ _ _ _ _ Hl1).
  unfold d' at 1. rewrite with_mean_default_other by done.
  destruct (d !! "initial_size") as [isz|]; [|reflexivity].
  rewrite (bind_getitem_ref _ _ _ _ _ Hl1).
  unfold d' at 1. rewrite with_mean_default_other by done.
  destruct (d !! "hessian") as [hess|]; [|reflexivity].
  rewrite (bind_dict_copy _ _ _ _ Hl1). fold copy.
  rewrite (bind_getitem_ref _ _ _ _ _ Hc).
  unfold d' at 1. rewrite with_mean_default_other by done.
  destruct (d !! "noise") as [noise|]; [|reflexivity].
  unfold bind, load, ret. by rewrite Hc.
Qed.

(** C10. [__init__] writes into the caller's dictionary: when it has no
    [mean_function] key the entry [mean_function = None] is inserted into
    that same object, before the copy that becomes [self.options] is made;
    every other entry of the caller's dictionary, and every other object,
    is left as it was.  The objective is read first, at line 16. *)
Theorem BO_init_mutates_caller_options (caller : loc) (h : dheap)
    (d : gmap string pyval) (ob : objective) :
  h !! caller = Some d ->
  d !! "objective" = Some (VObjective ob) ->
  (d !! "mean_function" = None ->
   snd (BO_init caller h) !! caller =
   Some (<["mean_function" := VNone]> d)) /\
  (is_Some (d !! "mean_function") ->
   snd (BO_init caller h) !! caller = Some d) /\
  (forall d' k,
      snd (BO_init caller h) !! caller = Some d' ->
      k <> "mean_function" -> d' !! k = d !! k) /\
  (forall l,
      l <> caller -> is_Some (h !! l) ->
      snd (BO_init caller h) !! l = h !! l) /\
  (forall bo,
      fst (BO_init caller h) = Ok bo ->
      options_ref bo <> caller /\
      h !! options_ref bo = None /\
      snd (BO_init caller h) !! options_ref bo =
        snd (BO_init caller h) !! caller /\
      snd (BO_init caller h) !! options_ref bo = Some (options bo) /\
      options bo !! "mean_function" =
        Some (default VNone (d !! "mean_function"))).
Proof.
  intros Hl Hobj.
  pose proof (BO_init_eq caller h d ob Hl Hobj) as Heq. simpl in Heq.
  set (d' := with_mean_default d) in *.
  set (h1 := <[caller := d']> h) in *.
  set (copy := fresh (dom h1)) in *.
  assert (Hl1 : h1 !! caller = Some d') by apply lookup_insert_eq.
  assert (Hcopy : h1 !! copy = None) by apply fresh_loc_unused.
  assert (Hne : copy <> caller) by congruence.
  assert (Hhcopy : h !! copy = None).
  { unfold h1 in Hcopy. by rewrite lookup_insert_ne in Hcopy. }
  assert (Hh1 : forall l, l <> caller -> h1 !! l = h !! l).
  { intros l Hn. unfold h1. by rewrite lookup_insert_ne. }
  assert (Hh2 : forall l, l <> copy -> <[copy := d']> h1 !! l = h1 !! l).
  { intros l Hn. by rewrite lookup_insert_ne. }
  assert (Hfinal : snd (BO_init caller h) !! caller = Some d' /\
    (forall l, l <> caller -> is_Some (h !! l) ->
               snd (BO_init caller h) !! l = h !! l)).
  { rewrite Heq.
    repeat match goal with
    | |- context [match ?x with _ => _ end] => destruct x
    end; simpl; split; try exact Hl1; try (intros l Hn _; by apply Hh1);
      try (by rewrite Hh2).
    all: intros l Hn [v Hv]; rewrite Hh2, Hh1; congruence. }
  destruct Hfinal as [Hopt Hframe].
  split; [|split; [|split; [|split]]].
  - intros Hmf. rewrite Hopt. unfold d', with_mean_default. by rewrite Hmf.
  - intros [v Hmf]. rewrite Hopt. unfold d', with_mean_default.
    by rewrite Hmf.
  - intros d0 k Hd0 Hk. rewrite Hopt in Hd0. inversion Hd0; subst d0.
    by apply with_mean_default_other.
  - exact Hframe.
  - intros bo Hbo. rewrite Hopt. rewrite Heq in Hbo |- *.
    repeat match type of Hbo with
    | context [match ?x with _ => _ end] => destruct x; try discriminate
    end.
    simpl in Hbo |- *. inversion Hbo; subst bo; simpl.
    rewrite lookup_insert_eq.
    repeat split; auto. apply with_mean_default_mean.
Qed.

(** C8, as the code has it.  The entry [noise] is required and its value
    is optional: for a configuration with the required options where
    [GPR.__init__] succeeds, construction succeeds when the entry [noise] is
    present; with [noise = None] the likelihood variance stays as [GPR]
    created it, with another value the variance is set to it and fixed.
    Without the entry [noise] line 36 raises [KeyError]. *)
Theorem BO_init_noise_entry (caller : loc) (h : dheap)
    (d : gmap string pyval) (ob : objective)
    (kern its bs isz hess : pyval) (lik : param) :
  h !! caller = Some d ->
  d !! "objective" = Some (VObjective ob) ->
  d !! "kernel" = Some kern ->
  d !! "iterations" = Some its ->
  d !! "batch_size" = Some bs ->
  d !! "initial_size" = Some isz ->
  d !! "hessian" = Some hess ->
  GPR_init (np_zeros 0 (length (objective_bounds ob)))
           (np_zeros 0 (length (objective_bounds ob))) kern
           (default VNone (d !! "mean_function")) = Ok lik ->
  match d !! "noise" with
  | None => fst (BO_init caller h) = Raise KeyError
  | Some VNone =>
      exists bo,
        fst (BO_init caller h) = Ok bo /\ likelihood_variance bo = lik
  | Some noise =>
      exists bo,
        fst (BO_init caller h) = Ok bo /\
        likelihood_variance bo = Param noise true
  end.
Proof.
  intros Hl Hobj Hk Hits Hbs Hisz Hhess Hgpr.
  rewrite (BO_init_eq caller h d ob Hl Hobj). simpl.
  rewrite Hk, Hgpr, Hits, Hbs, Hisz, Hhess.
  destruct (d !! "noise") as [noise|]; [|reflexivity].
  destruct noise; simpl; eauto.
Qed.

End Constructor.

(** ** The main loop *)

Section Loop.
Context `{Collaborators}.

(** C1 (the code fails the claim).  For every configuration and every
    integer seed, [bayesian_optimization(seed)] does not return: line 48
    calls the integer [seed], which raises [TypeError] before any point is
    sampled. *)
Theorem bayesian_optimization_raises (self : BO) (seed : Z) (s : st) :
  is_ok (fst (bayesian_optimization self seed s)) = false /\
  (forall s1,
      bind (set_seed seed) (fun _ => tf_set_random_seed seed) s =
        (Ok tt, s1) ->
      bayesian_optimization self seed s = (Raise TypeError, s1)).
Proof.
  unfold bayesian_optimization, bind, set_seed, modify, py_call, raise.
  destruct (tf_set_random_seed seed _) as [[[]|e] s1]; simpl.
  - split; [reflexivity|]. by intros s2 [= <-].
  - split; [reflexivity|]. discriminate.
Qed.

End Loop.

Section Dataset.
Context `{Collaborators} `{!NumpyLaws} `{!ShapeLaws}.

Tactic Notation "inv_bind" hyp(H) "as" ident(a) ident(s) ident(Ha) :=
  apply bind_inv_ok in H as (a & s & Ha & H).

Lemma lift_inv_ok {A} (r : res A) (s s' : st) (a : A) :
  lift r s = (Ok a, s') -> r = Ok a /\ s' = s.
Proof. unfold lift. by intros [= -> ->]. Qed.

(** The batch [get_suggestion] returns has [batch_size] rows. *)
Lemma get_suggestion_rows (self : BO) (b : Z) (s s' : st) (X : matrix) :
  0 <= b ->
  get_suggestion self (VInt b) s = (Ok X, s') ->
  nrows X = Z.to_nat b.
Proof.
  intros Hb Hrun. unfold get_suggestion in Hrun.
  inv_bind Hrun as reps s1 Hreps. inv_bind Hrun as restarts s2 Hrestarts.
  inv_bind Hrun as m s3 Hm. inv_bind Hrun as inc s4 Hfor.
  apply lift_inv_ok in Hreps as [_ ->].
  apply lift_inv_ok in Hrestarts as [_ ->].
  apply lift_inv_ok in Hm as [_ ->].
  pose proof (for_from_rule
    (suggestion_step self (VInt b) reps)
    (fun _ inc (_ : st) =>
       forall X y, inc = Some (X, y) -> nrows X = Z.to_nat b)
    (fun _ _ => True) m 0%nat None s) as Hloop.
  unfold for_range in Hfor. rewrite Hfor in Hloop. simpl in Hloop.
  destruct inc as [[X' y']|]; [|discriminate].
  inversion Hrun; subst X'. apply (Hloop) with (y := y'); auto.
  - discriminate.
  - intros j inc s0 _ Hinc.
    destruct (random_sample_cases (bounds self) b s0 Hb)
      as [(X_init & Hs & _ & Hrows & _)|(s1 & Hs & _)];
      [|unfold suggestion_step; by rewrite (bind_raise _ _ _ _ _ Hs)].
    pose proof (suggestion_step_cases self (VInt b)
                  reps j inc s0 _ X_init Hs) as Hc.
    destruct (solver_call self X_init _ _) as [[[[X0 y0] st0]|e] s2] eqn:Hcall.
    + rewrite Hc. simpl.
      unfold solver_call in Hcall. inv_bind Hcall as solver s3 Hsolver.
      apply solve_shape in Hcall as [Hr _].
      intros X1 y1. unfold suggestion_update.
      destruct inc as [[Xi yi]|].
      * destruct (flt y0 yi); intros [= <- <-]; [lia | eauto].
      * intros [= <- <-]. lia.
    + destruct e; rewrite Hc; simpl; auto.
Qed.

(** One iteration appends the new batch and its observations. *)
Lemma bo_iteration_appends (self : BO) (obj : objective) (b : Z) (i : nat)
    (X_all y_all X_all' y_all' : matrix) (s s' : st) :
  batch_size self = VInt b ->
  0 <= b ->
  bo_iteration self obj i (X_all, y_all) s = (Ok (X_all', y_all'), s') ->
  exists X_new y_new,
    rows X_all' = rows X_all ++ rows X_new /\
    rows y_all' = rows y_all ++ rows y_new /\
    nrows X_new = Z.to_nat b /\ nrows y_new = Z.to_nat b.
Proof.
  intros Hbs Hb Hrun. unfold bo_iteration in Hrun. rewrite Hbs in Hrun.
  inv_bind Hrun as restarts s1 E1. inv_bind Hrun as u2 s2 E2.
  inv_bind Hrun as samples s3 E3. inv_bind Hrun as sampling s4 E4.
  inv_bind Hrun as u5 s5 E5. inv_bind Hrun as X_new s6 Hsug.
  inv_bind Hrun as y_new s7 Hf. inv_bind Hrun as X1 s8 HcX.
  inv_bind Hrun as y1 s9 HcY. inv_bind Hrun as u10 s10 E10.
  inv_bind Hrun as Y' s11 E11. inv_bind Hrun as u12 s12 E12.
  apply get_suggestion_rows in Hsug; [|exact Hb].
  apply objective_f_rows in Hf.
  apply lift_inv_ok in HcX as [HcX _].
  apply lift_inv_ok in HcY as [HcY _].
  unfold ret in Hrun. inversion Hrun; subst.
  unfold np_concatenate in HcX, HcY.
  destruct (decide (ncols X_all = ncols X_new)); [|discriminate].
  destruct (decide (ncols y_all = ncols y_new)); [|discriminate].
  inversion HcX; inversion HcY; subst; simpl.
  exists X_new, y_new. repeat split; auto. lia.
Qed.

(** The history after a run of iterations: the history before it, followed
    by as many rows as iterations times the batch size. *)
Lemma bo_iterations_from (self : BO) (obj : objective) (b : Z) (n i : nat)
    (data data' : matrix * matrix) (s s' : st) :
  batch_size self = VInt b ->
  0 <= b ->
  for_from i n (bo_iteration self obj) data s = (Ok data', s') ->
  exists eX eY,
    rows (fst data') = rows (fst data) ++ eX /\
    rows (snd data') = rows (snd data) ++ eY /\
    length eX = (n * Z.to_nat b)%nat /\ length eY = (n * Z.to_nat b)%nat.
Proof.
  intros Hbs Hb Hrun.
  pose proof (for_from_rule (bo_iteration self obj)
    (fun j d (_ : st) =>
       exists eX eY,
         rows (fst d) = rows (fst data) ++ eX /\
         rows (snd d) = rows (snd data) ++ eY /\
         length eX = ((j - i) * Z.to_nat b)%nat /\
         length eY = ((j - i) * Z.to_nat b)%nat)
    (fun _ _ => True) n i data s) as Hloop.
  rewrite Hrun in Hloop. simpl in Hloop.
  destruct Hloop as (eX & eY & HX & HY & HlX & HlY).
  - exists [], []. rewrite !app_nil_r, Nat.sub_diag. auto.
  - intros j [X1 y1] s1 Hj (eX & eY & HX & HY & HlX & HlY).
    simpl in HX, HY. unfold outcome.
    destruct (bo_iteration self obj j (X1, y1) s1) as [[[X2 y2]|e] s2] eqn:Hit;
      simpl; [|trivial].
    destruct (bo_iteration_appends self obj b j X1 y1 X2 y2 s1 s2 Hbs Hb Hit)
      as (X_new & y_new & HX2 & HY2 & HnX & HnY).
    exists (eX ++ rows X_new), (eY ++ rows y_new).
    rewrite HX2, HY2, HX, HY, <- !app_assoc, !length_app.
    unfold nrows in HnX, HnY. repeat split; auto; nia.
  - exists eX, eY. replace (i + n - i)%nat with n in * by lia. auto.
Qed.

(** C3. For a run of [n] iterations with initial size [s] and batch size
    [b], the returned [X_all] has [s + n * b] rows and [y_all] as many; and
    the history only grows at its end: each iteration appends [b] rows to
    both arrays and the history after any number of iterations is a prefix
    of the history after more of them. *)
Theorem dataset_is_append_only (self : BO) (n b isz : Z) :
  iterations self = VInt n ->
  batch_size self = VInt b ->
  initial_size self = VInt isz ->
  0 <= n -> 0 <= b -> 0 <= isz ->
  (forall X_all y_all s s',
      bo_loop self s = (Ok (X_all, y_all), s') ->
      Z.of_nat (nrows X_all) = isz + n * b /\ nrows y_all = nrows X_all) /\
  (forall obj i X_all y_all X_all' y_all' s s',
      bo_iteration self obj i (X_all, y_all) s = (Ok (X_all', y_all'), s') ->
      exists X_new y_new,
        rows X_all' = rows X_all ++ rows X_new /\
        rows y_all' = rows y_all ++ rows y_new /\
        nrows X_new = Z.to_nat b /\ nrows y_new = Z.to_nat b) /\
  (forall obj i j data data_i data_j s s_i s_j,
      (i <= j)%nat ->
      bo_iterations self obj i data s = (Ok data_i, s_i) ->
      bo_iterations self obj j data s = (Ok data_j, s_j) ->
      rows (fst data_i) `prefix_of` rows (fst data_j) /\
      rows (snd data_i) `prefix_of` rows (snd data_j) /\
      nrows (fst data_j) = (nrows (fst data_i) + (j - i) * Z.to_nat b)%nat /\
      nrows (snd data_j) = (nrows (snd data_i) + (j - i) * Z.to_nat b)%nat).
Proof.
  intros Hits Hbs Hisz Hn Hb Hs. split; [|split].
  - intros X_all y_all s s' Hrun. unfold bo_loop in Hrun.
    inv_bind Hrun as init s1 Hinit. inv_bind Hrun as m s2 Hm.
    rewrite Hits in Hm. apply lift_inv_ok in Hm as [Hr ->].
    simpl in Hr. inversion Hr; subst m. clear Hr.
    unfold bo_initialize in Hinit. rewrite Hisz in Hinit.
    inv_bind Hinit as o t1 Ho. inv_bind Hinit as X0 t2 HX0.
    inv_bind Hinit as obj t3 Hobj. inv_bind Hinit as y0 t4 Hy0.
    inv_bind Hinit as u5 t5 E5. inv_bind Hinit as Y0 t6 E6.
    inv_bind Hinit as u7 t7 E7.
    unfold ret in Hinit. inversion Hinit; subst. simpl in Hrun.
    destruct (random_sample_returned (bounds self) isz t1 t2 X0 Hs HX0)
      as (_ & _ & HrX0 & _).
    apply objective_f_rows in Hy0.
    destruct (bo_iterations_from self obj b (Z.to_nat n) 0
                (X0, y0) (X_all, y_all) s1 s' Hbs Hb Hrun)
      as (eX & eY & HX & HY & HlX & HlY).
    simpl in *. unfold nrows in *. rewrite HX, HY, !length_app. lia.
  - intros obj i X_all y_all X_all' y_all' s s'.
    by apply bo_iteration_appends.
  - intros obj i j data data_i data_j s s_i s_j Hij Hi Hj.
    unfold bo_iterations, for_range in *.
    replace j with (i + (j - i))%nat in Hj by lia.
    rewrite for_from_app in Hj. rewrite (bind_ok _ _ _ _ _ Hi) in Hj.
    destruct (bo_iterations_from self obj b (j - i) (0 + i) data_i data_j
                s_i s_j Hbs Hb Hj) as (eX & eY & HX & HY & HlX & HlY).
    unfold nrows. rewrite HX, HY, !length_app.
    repeat split; try lia; by eexists.
Qed.

End Dataset.

(** ** The test doubles meet the contracts *)

Lemma uniform_double_length (lo hi : float) (k : nat) (s : state nat) :
  length (fst (Demo.uniform_double lo hi k s)) = k.
Proof. unfold Demo.uniform_double. simpl. by rewrite length_map, length_seq. Qed.

Lemma uniform_double_range (lo hi : float) (k : nat) (s : state nat)
    (x : float) :
  fle lo hi = true ->
  x ∈ fst (Demo.uniform_double lo hi k s) ->
  fle lo x = true /\ fle x hi = true.
Proof.
  intros Hle Hx. unfold Demo.uniform_double in Hx. simpl in Hx.
  apply list_elem_of_fmap in Hx as (j & -> & _).
  destruct (fle_not_nan lo hi Hle) as [Hlo Hhi].
  unfold Demo.draw. destruct (Nat.even _); split; auto using fle_refl.
Qed.

Lemma doubles_numpy_laws : @NumpyLaws Demo.doubles.
Proof.
  constructor.
  - intros lo hi k s _. apply uniform_double_length.
  - intros lo hi k s x _. apply uniform_double_range.
Qed.

Lemma failing_solver_numpy_laws : @NumpyLaws Demo.failing_solver.
Proof.
  constructor.
  - intros lo hi k s _. apply uniform_double_length.
  - intros lo hi k s x _. apply uniform_double_range.
Qed.

Lemma doubles_shape_laws : @ShapeLaws Demo.doubles.
Proof.
  constructor.
  - intros X_init b h sv s X0 y0 status s'. simpl.
    unfold Demo.solve_double. destruct (Nat.even _); intros Hs;
      [discriminate Hs|].
    by inversion Hs; subst.
  - intros o X s Y s'. simpl. unfold Demo.f_double, ret. intros Hf.
    inversion Hf; subst. unfold nrows. simpl. apply length_map.
Qed.

(** ** The properties on concrete inputs *)

Lemma random_sample_within_bounds_witness :
  0 <= 3 /\
  Forall (fun b => fle (fst b) (snd b) = true) Demo.unit_bounds /\
  Forall (fun b => finite_range b = true) Demo.unit_bounds /\
  exists X,
    @random_sample Demo.doubles Demo.unit_bounds (VInt 3) Demo.a_state =
      (Ok X, @state_before Demo.doubles Demo.unit_bounds 3 Demo.a_state 2) /\
    nrows X = 3%nat /\ ncols X = 2%nat.
Proof.
  assert (Hk : 0 <= 3) by lia.
  assert (Hb : Forall (fun b => fle (fst b) (snd b) = true) Demo.unit_bounds)
    by (repeat constructor).
  assert (Hf : Forall (fun b => finite_range b = true) Demo.unit_bounds)
    by (repeat constructor).
  split; [exact Hk|]. split; [exact Hb|]. split; [exact Hf|].
  destruct (proj1 (@random_sample_within_bounds Demo.doubles
                     doubles_numpy_laws Demo.unit_bounds 3 Demo.a_state
                     Hk Hb) Hf)
    as (X & Hrun & Hr & Hc & _).
  exists X. auto.
Defined.

(** C7 as the specification states it fails: the bounds
    [[-1.7976931348623157e308, 1.7976931348623157e308]] have lower <= upper,
    but their width is not a finite binary64 number, and [random_sample]
    raises [OverflowError] instead of returning an array. *)
Lemma random_sample_wide_bounds_raises :
  0 <= 3 /\
  Forall (fun b => fle (fst b) (snd b) = true) Cases.wide_bounds /\
  @random_sample Demo.doubles Cases.wide_bounds (VInt 3) Demo.a_state =
    (Raise OverflowError, Demo.a_state) /\
  ~ (exists X s',
       @random_sample Demo.doubles Cases.wide_bounds (VInt 3) Demo.a_state =
       (Ok X, s')).
Proof.
  assert (Hr : @random_sample Demo.doubles Cases.wide_bounds (VInt 3)
                 Demo.a_state = (Raise OverflowError, Demo.a_state))
    by (vm_compute; reflexivity).
  split; [lia|]. split; [repeat constructor|]. split; [exact Hr|].
  intros (X & s' & HX). rewrite Hr in HX. discriminate.
Qed.



(** A constant column whose sum is exact has the computed standard
    deviation 0 and is left as it is. *)
Example normalize_keeps_constant_sevens :
  @np_std Demo.doubles (column0 Cases.constant_sevens) = float_zero /\
  @normalize Demo.doubles Demo.a_bo 1%positive
    {[1%positive := Cases.constant_sevens]} =
    (Ok 2%positive,
     <[2%positive := Cases.constant_sevens]>
       {[1%positive := Cases.constant_sevens]}).
Proof. split; vm_compute; reflexivity. Qed.

Lemma optimize_restarts_never_worse_witness :
  @recompile_if_needed Demo.doubles Demo.a_state =
    (Ok tt, Demo.a_compiled_state) /\
  free_state Demo.a_compiled_state = free_state Demo.a_state /\
  @gp_objective Demo.doubles Demo.a_compiled_state (free_state Demo.a_state) =
    Ok (Demo.float_of_Z 5, []) /\
  (fst (@optimize_restarts Demo.doubles (VInt 2) Demo.a_state) =
     Raise KeyboardInterrupt \/
   exists s' v1 g1,
     @optimize_restarts Demo.doubles (VInt 2) Demo.a_state = (Ok tt, s') /\
     @gp_objective Demo.doubles Demo.a_compiled_state (free_state s') =
       Ok (v1, g1) /\
     (v1 = Demo.float_of_Z 5 \/ flt v1 (Demo.float_of_Z 5) = true)).
Proof.
  assert (H1 : @recompile_if_needed Demo.doubles Demo.a_state =
               (Ok tt, Demo.a_compiled_state)) by reflexivity.
  assert (H2 : free_state Demo.a_compiled_state = free_state Demo.a_state)
    by reflexivity.
  assert (H3 : @gp_objective Demo.doubles Demo.a_compiled_state
                 (free_state Demo.a_state) = Ok (Demo.float_of_Z 5, []))
    by reflexivity.
  do 3 (split; [assumption|]).
  exact (proj1 (@optimize_restarts_never_worse Demo.doubles 2 Demo.a_state
                  Demo.a_compiled_state _ _ H1 H2 H3)).
Defined.

Lemma get_suggestion_zero_restarts_witness :
  options Demo.a_bo_without_restarts !! "opt_restarts" = Some (VInt 0) /\
  @get_suggestion Demo.doubles Demo.a_bo_without_restarts (VInt 1)
    Demo.a_state = (Raise AssertionError, Demo.a_state).
Proof.
  assert (H1 : options Demo.a_bo_without_restarts !! "opt_restarts" =
               Some (VInt 0)) by reflexivity.
  split; [exact H1|].
  apply (proj2 (@get_suggestion_zero_restarts Demo.doubles
                  Demo.a_bo_without_restarts Demo.a_state H1)).
  lia.
Defined.

Lemma get_suggestion_failed_trials_witness :
  0 <= 1 /\ 1 <= 3 /\
  options Demo.a_bo !! "opt_restarts" = Some (VInt 3) /\
  (exists X y status s',
     @run_trials Demo.doubles Demo.a_bo (VInt 1)
       (np_tile (bounds Demo.a_bo) 1) 3 Demo.a_state =
       ([Raise RuntimeError; Ok (X, y, status); Raise RuntimeError],
        Completed, s') /\
     @get_suggestion Demo.doubles Demo.a_bo (VInt 1) Demo.a_state =
       (Ok X, s')) /\
  (exists s',
     @run_trials Demo.failing_solver Demo.a_bo (VInt 1)
       (np_tile (bounds Demo.a_bo) 1) 3 Demo.a_state =
       ([Raise RuntimeError; Raise RuntimeError; Raise RuntimeError],
        Completed, s') /\
     @get_suggestion Demo.failing_solver Demo.a_bo (VInt 1) Demo.a_state =
       (Raise AssertionError, s')).
Proof.
  assert (H1 : 0 <= 1) by lia.
  assert (H2 : 1 <= 3) by lia.
  assert (H3 : options Demo.a_bo !! "opt_restarts" = Some (VInt 3))
    by reflexivity.
  do 3 (split; [assumption|]). split.
  - assert (Hrun : exists X y status s',
              @run_trials Demo.doubles Demo.a_bo (VInt 1)
                (np_tile (bounds Demo.a_bo) 1) 3 Demo.a_state =
              ([Raise RuntimeError; Ok (X, y, status); Raise RuntimeError],
               Completed, s'))
      by (eexists _, _, _, _; reflexivity).
    destruct Hrun as (X & y & status & s' & Hrun).
    exists X, y, status, s'. split; [exact Hrun|].
    pose proof (@get_suggestion_failed_trials Demo.doubles Demo.a_bo 1 3
                  Demo.a_state s' _ _ H1 H2 H3 Hrun)
      as (_ & _ & Hget & _).
    exact (Hget eq_refl).
  - assert (Hrun : exists s',
              @run_trials Demo.failing_solver Demo.a_bo (VInt 1)
                (np_tile (bounds Demo.a_bo) 1) 3 Demo.a_state =
              ([Raise RuntimeError; Raise RuntimeError; Raise RuntimeError],
               Completed, s'))
      by (eexists; reflexivity).
    destruct Hrun as (s' & Hrun).
    exists s'. split; [exact Hrun|].
    pose proof (@get_suggestion_failed_trials Demo.failing_solver Demo.a_bo
                  1 3 Demo.a_state s' _ _ H1 H2 H3 Hrun)
      as (Hall & _).
    exact (proj2 (proj2 (Hall eq_refl) eq_refl)).
Defined.

Lemma BO_init_mutates_caller_options_witness :
  ({[1%positive := Demo.config]} : gmap loc (gmap string pyval))
    !! 1%positive = Some Demo.config /\
  Demo.config !! "objective" = Some (VObjective Demo.an_objective) /\
  Demo.config !! "mean_function" = None /\
  snd (@BO_init Demo.doubles 1%positive {[1%positive := Demo.config]})
    !! 1%positive = Some (<["mean_function" := VNone]> Demo.config).
Proof.
  assert (H1 : ({[1%positive := Demo.config]}
                  : gmap loc (gmap string pyval)) !! 1%positive =
               Some Demo.config) by reflexivity.
  assert (H2 : Demo.config !! "objective" =
               Some (VObjective Demo.an_objective)) by reflexivity.
  assert (H3 : Demo.config !! "mean_function" = None) by reflexivity.
  do 3 (split; [assumption|]).
  exact (proj1 (@BO_init_mutates_caller_options Demo.doubles 1%positive _
                  Demo.config Demo.an_objective H1 H2) H3).
Defined.

Lemma BO_init_noise_entry_witness :
  ({[1%positive := Demo.config_fixed_noise]} : gmap loc (gmap string pyval))
    !! 1%positive = Some Demo.config_fixed_noise /\
  Demo.config_fixed_noise !! "noise" = Some (VFloat (Demo.float_of_Z 3)) /\
  exists bo,
    fst (@BO_init Demo.doubles 1%positive
           {[1%positive := Demo.config_fixed_noise]}) = Ok bo /\
    likelihood_variance bo = Param (VFloat (Demo.float_of_Z 3)) true.
Proof.
  assert (H1 : ({[1%positive := Demo.config_fixed_noise]}
                  : gmap loc (gmap string pyval)) !! 1%positive =
               Some Demo.config_fixed_noise) by reflexivity.
  split; [exact H1|]. split; [reflexivity|].
  exact (@BO_init_noise_entry Demo.doubles 1%positive _
           Demo.config_fixed_noise Demo.an_objective
           (VOpaque "RBF") (VInt 2) (VInt 1) (VInt 3) (VBool false)
           (Param (VFloat (Demo.float_of_Z 1)) false)
           H1 eq_refl eq_refl eq_refl eq_refl eq_refl eq_refl eq_refl).
Defined.

(** C8 as the specification states it fails: a configuration with every
    required option and no [noise] entry makes the constructor raise. *)
Lemma BO_init_without_noise_raises :
  Demo.config_without_noise !! "noise" = None /\
  fst (@BO_init Demo.doubles 1%positive
         {[1%positive := Demo.config_without_noise]}) = Raise KeyError /\
  ~ (exists bo,
       fst (@BO_init Demo.doubles 1%positive
              {[1%positive := Demo.config_without_noise]}) = Ok bo).
Proof.
  assert (Hr : fst (@BO_init Demo.doubles 1%positive
                      {[1%positive := Demo.config_without_noise]}) =
               Raise KeyError) by (vm_compute; reflexivity).
  split; [reflexivity|]. split; [exact Hr|].
  intros [bo Hbo]. rewrite Hr in Hbo. discriminate.
Qed.

Lemma dataset_is_append_only_witness :
  iterations Demo.a_bo = VInt 2 /\
  batch_size Demo.a_bo = VInt 1 /\
  initial_size Demo.a_bo = VInt 3 /\
  exists X_all y_all s',
    @bo_loop Demo.doubles Demo.a_bo Demo.a_state = (Ok (X_all, y_all), s') /\
    Z.of_nat (nrows X_all) = 3 + 2 * 1 /\ nrows y_all = nrows X_all.
Proof.
  do 3 (split; [reflexivity|]).
  destruct (@bo_loop Demo.doubles Demo.a_bo Demo.a_state)
    as [[[X_all y_all]|e] s'] eqn:Hrun.
  - exists X_all, y_all, s'. split; [reflexivity|].
    apply (proj1 (@dataset_is_append_only Demo.doubles doubles_numpy_laws
                    doubles_shape_laws Demo.a_bo 2 1 3 eq_refl eq_refl eq_refl
                    ltac:(lia) ltac:(lia) ltac:(lia)) X_all y_all
                 Demo.a_state s' Hrun).
  - exfalso. vm_compute in Hrun. discriminate.
Defined.

(** The integer seed 0 on the example configuration. *)
Example bayesian_optimization_seed_0 :
  fst (@bayesian_optimization Demo.doubles Demo.a_bo 0 Demo.a_state) =
  Raise TypeError.
Proof. reflexivity. Qed.

(** The example object is the one the constructor builds from the example
    configuration. *)
Example BO_init_builds_a_bo :
  fst (@BO_init Demo.doubles 1%positive {[1%positive := Demo.config]}) =
  Ok Demo.a_bo.
Proof. vm_compute. reflexivity. Qed.

(** With a solver that fails on every other call, the three trials of the
    example leave a batch: the failed trials are not fatal. *)
Example get_suggestion_some_trials_fail :
  is_ok (fst (@get_suggestion Demo.doubles Demo.a_bo (VInt 1) Demo.a_state)) =
  true.
Proof. vm_compute. reflexivity. Qed.

(** * Further properties *)

(** ** The acquisition wrapper *)

Lemma chunks_length (n k : nat) : forall v, length (chunks n k v) = k.
Proof. induction k as [|k IH]; intros v; simpl; [reflexivity|]. by rewrite IH. Qed.

Lemma chunks_wf (n k : nat) :
  forall v, length v = (k * n)%nat ->
    Forall (fun r => length r = n) (chunks n k v).
Proof.
  induction k as [|k IH]; intros v Hv; simpl; constructor.
  - rewrite length_take. lia.
  - apply IH. rewrite length_drop. lia.
Qed.

Lemma concat_chunks (n k : nat) :
  forall v, length v = (k * n)%nat -> concat (chunks n k v) = v.
Proof.
  induction k as [|k IH]; intros v Hv; simpl.
  - destruct v; [reflexivity | discriminate].
  - rewrite IH; [apply take_drop|]. rewrite length_drop. lia.
Qed.

Lemma chunks_concat (n : nat) (rs : list (list float)) :
  Forall (fun r => length r = n) rs ->
  chunks n (length rs) (concat rs) = rs.
Proof.
  induction rs as [|r rs IH]; intros Hwf; simpl; [reflexivity|].
  inversion Hwf as [|? ? Hr Hrs]; subst.
  rewrite take_app_length, drop_app_length. by rewrite IH.
Qed.

Lemma concat_length_wf (n : nat) (rs : list (list float)) :
  Forall (fun r => length r = n) rs ->
  length (concat rs) = (length rs * n)%nat.
Proof.
  induction rs as [|r rs IH]; intros Hwf; simpl; [reflexivity|].
  inversion Hwf; subst. rewrite length_app, IH by assumption. lia.
Qed.

Lemma np_ravel_length (x : ndarray) :
  wf_ndarray x -> length (np_ravel x) = np_size x.
Proof.
  destruct x as [v|A]; simpl; [reflexivity|].
  intros Hwf. by apply concat_length_wf.
Qed.

Section AcquisitionWrapper.
Context `{AcquisitionModel}.

(** X1. When [dim] divides the size of [x], [acquisition] evaluates
    [acquisition_tf] at an array of shape [(x.size // dim, dim)] whose rows,
    read in order, are exactly the elements of [x]: the reshape loses or
    reorders nothing. *)
Theorem acquisition_reshape_lossless (self : BO) (x : ndarray) (s : st) :
  dim self <> 0%nat ->
  wf_ndarray x ->
  (np_size x mod dim self = 0)%nat ->
  exists X,
    acquisition self x s =
      (Finished (fst (acquisition_tf X s)), snd (acquisition_tf X s)) /\
    nrows X = (np_size x / dim self)%nat /\
    ncols X = dim self /\
    wf_matrix X /\
    concat (rows X) = np_ravel x.
Proof.
  intros Hdim Hwf Hmod.
  pose proof (Nat.div_mod_eq (np_size x) (dim self)) as Hdiv.
  assert (Hsize : np_size x = (np_size x / dim self * dim self)%nat) by lia.
  assert (Hlen : length (np_ravel x) = (np_size x / dim self * dim self)%nat).
  { rewrite np_ravel_length by assumption. exact Hsize. }
  exists (Matrix (dim self)
            (chunks (dim self) (np_size x / dim self) (np_ravel x))).
  split.
  - unfold acquisition, np_reshape.
    destruct (decide (dim self = 0%nat)); [contradiction|].
    destruct (decide (np_size x = (np_size x / dim self * dim self)%nat));
      [|contradiction].
    destruct (acquisition_tf _ s) as [r s']. reflexivity.
  - unfold nrows, wf_matrix. simpl. rewrite chunks_length.
    repeat split; [by apply chunks_wf | by apply concat_chunks].
Qed.

(** X2. A batch-shaped argument and its flattening give the same call:
    for a batch [A] of [dim] columns, [acquisition] evaluates
    [acquisition_tf] at [A] itself, whether [A] or its flat form is
    passed. *)
Theorem acquisition_flat_or_batch (self : BO) (A : matrix) (s : st) :
  dim self <> 0%nat ->
  wf_matrix A ->
  ncols A = dim self ->
  acquisition self (Batch A) s =
    (Finished (fst (acquisition_tf A s)), snd (acquisition_tf A s)) /\
  acquisition self (Flat (concat (rows A))) s = acquisition self (Batch A) s.
Proof.
  intros Hdim Hwf Hcols.
  assert (Hk : (nrows A * ncols A / dim self)%nat = nrows A).
  { rewrite Hcols. by apply Nat.div_mul. }
  assert (Hlen : length (concat (rows A)) = (nrows A * ncols A)%nat).
  { by apply concat_length_wf. }
  assert (Hbatch : acquisition self (Batch A) s =
    (Finished (fst (acquisition_tf A s)), snd (acquisition_tf A s))).
  { unfold acquisition, np_reshape. simpl.
    destruct (decide (dim self = 0%nat)); [contradiction|].
    rewrite Hk.
    destruct (decide ((nrows A * ncols A)%nat = (nrows A * dim self)%nat));
      [|rewrite Hcols in *; contradiction].
    unfold nrows. rewrite <- Hcols, chunks_concat by exact Hwf.
    destruct A as [c rs]. simpl.
    destruct (acquisition_tf _ s) as [r s']. reflexivity. }
  split; [exact Hbatch|].
  rewrite Hbatch. unfold acquisition, np_reshape. simpl.
  destruct (decide (dim self = 0%nat)); [contradiction|].
  rewrite Hlen, Hk.
  destruct (decide ((nrows A * ncols A)%nat = (nrows A * dim self)%nat));
    [|rewrite Hcols in *; contradiction].
  unfold nrows. rewrite <- Hcols, chunks_concat by exact Hwf.
  destruct A as [c rs]. simpl.
  destruct (acquisition_tf _ s) as [r s']. reflexivity.
Qed.

(** X3. [acquisition] fails before it reaches the model: with [dim = 0]
    the division of line 135 raises [ZeroDivisionError], and when [dim] does
    not divide the size of [x] the reshape raises [ValueError]; in both
    cases the state is untouched. *)
Theorem acquisition_errors (self : BO) (x : ndarray) (s : st) :
  (dim self = 0%nat -> acquisition self x s = (ZeroDivisionError, s)) /\
  (dim self <> 0%nat -> (np_size x mod dim self <> 0)%nat ->
   acquisition self x s = (Finished (Raise ValueError), s)).
Proof.
  split.
  - intros Hdim. unfold acquisition.
    destruct (decide (dim self = 0%nat)); [reflexivity | contradiction].
  - intros Hdim Hmod. unfold acquisition, np_reshape.
    destruct (decide (dim self = 0%nat)); [contradiction|].
    pose proof (Nat.div_mod_eq (np_size x) (dim self)) as Hdiv.
    destruct (decide (np_size x = (np_size x / dim self * dim self)%nat));
      [lia | reflexivity].
Qed.

End AcquisitionWrapper.

(** ** The sampler at the edges *)

Section SamplerEdges.
Context `{Collaborators} `{!NumpyLaws}.

(** X4. [random_sample] checks nothing itself: what is refused is what
    numpy refuses.  A negative count raises [ValueError] and a bool used as
    a count [TypeError], before any draw.  For [k >= 0] and bounds of finite
    width, ordered or not, it returns an array of shape [(k, dim)] and
    leaves the generator as one draw for each dimension leaves it.  A
    dimension whose width [upper - lower] is not finite raises
    [OverflowError], whatever [k] is; when it is the first dimension nothing
    has been drawn.  With no dimension it returns the [k x 0] array without
    drawing, and with [k = 0] and finite widths it still draws once for
    each dimension. *)
Theorem random_sample_unchecked (bounds : bounds_t) (s : st) :
  (forall k, k < 0 ->
     random_sample bounds (VInt k) s = (Raise ValueError, s)) /\
  (forall b, random_sample bounds (VBool b) s = (Raise TypeError, s)) /\
  (forall k, 0 <= k ->
     forallb finite_range bounds = true ->
     exists X,
       random_sample bounds (VInt k) s =
         (Ok X, snd (column_draws bounds (Z.to_nat k) s)) /\
       nrows X = Z.to_nat k /\ ncols X = length bounds /\ wf_matrix X) /\
  (forall k, 0 <= k ->
     forallb finite_range bounds = false ->
     exists s', random_sample bounds (VInt k) s = (Raise OverflowError, s')) /\
  (forall k lo hi bounds', 0 <= k ->
     finite_range (lo, hi) = false ->
     random_sample ((lo, hi) :: bounds') (VInt k) s =
       (Raise OverflowError, s)) /\
  (forall k, 0 <= k ->
     random_sample [] (VInt k) s = (Ok (np_zeros (Z.to_nat k) 0), s)) /\
  (forallb finite_range bounds = true ->
   random_sample bounds (VInt 0) s =
     (Ok (Matrix (length bounds) []), snd (column_draws bounds 0 s))).
Proof.
  split; [|split; [|split; [|split; [|split; [|split]]]]].
  - intros k Hk. unfold random_sample, py_count, bind, lift. simpl.
    destruct (Z.ltb_spec k 0) as [_|?]; [reflexivity | lia].
  - intros b. reflexivity.
  - intros k Hk Hfin.
    destruct (random_sample_draws bounds k s Hk Hfin)
      as (X & Hrun & Hr & Hc & Hwf & _).
    exists X. auto.
  - intros k Hk Hfin.
    destruct (random_sample_cases bounds k s Hk)
      as [(X & _ & Hyes & _)|(s' & Hrun & _)]; [congruence|].
    by exists s'.
  - intros k lo hi bounds' Hk Hfin.
    unfold random_sample, py_count, for_range, bind, lift.
    destruct (Z.ltb_spec k 0) as [?|_]; [lia|]. simpl.
    unfold sample_body. simpl. unfold bind, uniform.
    unfold finite_range in Hfin. simpl in Hfin. by rewrite Hfin.
  - intros k Hk. unfold random_sample, py_count, bind, lift. simpl.
    destruct (Z.ltb_spec k 0) as [?|_]; [lia | reflexivity].
  - intros Hfin.
    destruct (random_sample_draws bounds 0 s ltac:(lia) Hfin)
      as (X & Hrun & Hr & Hc & Hwf & _).
    simpl in Hrun, Hr. rewrite Hrun. f_equal. f_equal.
    destruct X as [c rs]. unfold nrows in Hr. simpl in *.
    destruct rs; [by subst | discriminate].
Qed.

End SamplerEdges.

(** ** The normaliser on every input *)

Section NormalizerCases.
Context `{Collaborators}.

Lemma normalize_cases (self : BO) (Y : loc) (h : gmap loc matrix)
    (Yv : matrix) :
  h !! Y = Some Yv ->
  normalize self Y h =
  (normalize_outcome self Yv (fresh (dom h)),
   <[fresh (dom h) := normalized_array self Yv]> h).
Proof.
  intros HY. set (Y_ := fresh (dom h)).
  assert (Hfresh : h !! Y_ = None) by apply fresh_loc_unused.
  assert (Hne : Y_ <> Y) by congruence.
  assert (HY1 : <[Y_ := Yv]> h !! Y = Some Yv) by by rewrite lookup_insert_ne.
  unfold normalize, normalize_outcome, normalized_array, bind, load, alloc,
    lift, getitem, store, ret.
  rewrite HY. fold Y_.
  destruct (options self !! "normalize_Y") as [flag|]; [|reflexivity].
  destruct (truthy flag); simpl; [|reflexivity].
  rewrite HY1. unfold get_col.
  destruct (decide (0 < ncols Yv)%nat) as [Hc|Hc].
  - rewrite bool_decide_eq_true_2 by exact Hc. simpl. fold (column0 Yv).
    destruct (flt float_zero (np_std (column0 Yv))); [|reflexivity].
    rewrite HY1. destruct (decide (0 < ncols Yv)%nat); [|contradiction].
    fold (column0 Yv). rewrite lookup_insert_eq.
    fold (standardized (column0 Yv)).
    rewrite set_col_ok.
    + by rewrite insert_insert_eq.
    + exact Hc.
    + rewrite standardized_length. unfold nrows, column0. apply length_map.
  - rewrite bool_decide_eq_false_2 by exact Hc. reflexivity.
Qed.

Lemma normalized_array_shape (self : BO) (Yv : matrix) :
  ncols (normalized_array self Yv) = ncols Yv /\
  nrows (normalized_array self Yv) = nrows Yv.
Proof.
  unfold normalized_array.
  destruct (options self !! "normalize_Y") as [flag|]; [|done].
  destruct (_ && _ && _); [|done].
  unfold nrows. simpl. split; [reflexivity|].
  rewrite length_zip_with, standardized_length. unfold column0.
  rewrite length_map. lia.
Qed.

(** X5. The failures of [normalize] and its pass-through.  Without a
    [normalize_Y] entry line 198 raises [KeyError]; with a true
    [normalize_Y] an array without columns raises [IndexError]; with a false
    [normalize_Y] every array, also one without columns, comes back as a
    new array equal to the input. *)
Theorem normalize_errors (self : BO) (Y : loc) (h : gmap loc matrix)
    (Yv : matrix) :
  h !! Y = Some Yv ->
  (options self !! "normalize_Y" = None ->
   fst (normalize self Y h) = Raise KeyError) /\
  (forall flag,
      options self !! "normalize_Y" = Some flag ->
      truthy flag = true -> ncols Yv = 0%nat ->
      fst (normalize self Y h) = Raise IndexError) /\
  (forall flag,
      options self !! "normalize_Y" = Some flag ->
      truthy flag = false ->
      exists Y_,
        normalize self Y h = (Ok Y_, <[Y_ := Yv]> h) /\
        h !! Y_ = None /\ Y_ <> Y).
Proof.
  intros HY. rewrite (normalize_cases self Y h Yv HY).
  unfold normalize_outcome, normalized_array. simpl.
  split; [|split].
  - by intros ->.
  - intros flag -> -> Hc. rewrite bool_decide_eq_false_2 by lia. reflexivity.
  - intros flag -> ->. simpl. eexists. split; [reflexivity|].
    split; [apply fresh_loc_unused|].
    pose proof (fresh_loc_unused h). congruence.
Qed.

(** X6. [normalize] never writes an array that exists: whether it returns
    or raises, every array of the heap, the argument among them, holds what
    it held; and the array it returns is new and has the shape of its
    argument. *)
Theorem normalize_frame (self : BO) (Y : loc) (h : gmap loc matrix) :
  (forall l, is_Some (h !! l) -> snd (normalize self Y h) !! l = h !! l) /\
  (forall Y_ h' Yv,
      normalize self Y h = (Ok Y_, h') ->
      h !! Y = Some Yv ->
      h !! Y_ = None /\
      exists Yv',
        h' !! Y_ = Some Yv' /\
        ncols Yv' = ncols Yv /\ nrows Yv' = nrows Yv).
Proof.
  split.
  - intros l [v Hl]. destruct (h !! Y) as [Yv|] eqn:HY.
    + rewrite (normalize_cases self Y h Yv HY). simpl.
      rewrite lookup_insert_ne; [reflexivity|].
      pose proof (fresh_loc_unused h). congruence.
    + unfold normalize, bind, load. by rewrite HY.
  - intros Y_ h' Yv Hrun HY.
    rewrite (normalize_cases self Y h Yv HY) in Hrun.
    inversion Hrun as [[Hout Hh']].
    assert (HY_ : Y_ = fresh (dom h)).
    { unfold normalize_outcome in Hout.
      destruct (options self !! "normalize_Y"); [|discriminate].
      destruct (_ && _); [discriminate | congruence]. }
    subst Y_. split; [apply fresh_loc_unused|].
    exists (normalized_array self Yv). rewrite lookup_insert_eq.
    split; [reflexivity | apply normalized_array_shape].
Qed.

(** The value form of [normalize] keeps the shape as well. *)
Lemma normalize_value_shape (self : BO) (Yv Yv' : matrix) :
  normalize_value self Yv = Ok Yv' ->
  ncols Yv' = ncols Yv /\ nrows Yv' = nrows Yv.
Proof.
  unfold normalize_value.
  rewrite (normalize_cases self 1%positive {[1%positive := Yv]} Yv)
    by apply lookup_singleton_eq.
  destruct (normalize_outcome self Yv _) as [l|e] eqn:Hout; [|discriminate].
  assert (Hl : l = fresh (dom ({[1%positive := Yv]} : gmap loc matrix))).
  { unfold normalize_outcome in Hout.
    destruct (options self !! "normalize_Y"); [|discriminate].
    destruct (_ && _); [discriminate | congruence]. }
  rewrite Hl, lookup_insert_eq. intros [= <-].
  apply normalized_array_shape.
Qed.

End NormalizerCases.

(** ** The hyperparameter fitter: interrupts, errors and the minimum *)

Lemma flt_nan_r (x : float) : flt x S754_nan = false.
Proof. destruct x as [s|s| |s m e]; reflexivity. Qed.

(** A value that is not below [y] is not below anything below [y]. *)
Lemma flt_not_below (w y y' : float) :
  flt w y = false -> flt y' y = true -> flt w y' = false.
Proof.
  intros Hw Hy. destruct (flt w y') eqn:Hwy; [|reflexivity].
  rewrite (flt_trans w y' y Hwy Hy) in Hw. discriminate.
Qed.

Section FitterEdges.
Context `{Collaborators}.

(** X7. An interrupt during a restart leaves the model where the trial
    left it: when the restart after [j] completed ones is interrupted,
    [optimize_restarts] raises [KeyboardInterrupt] in the state the
    interrupted trial reached, and [set_state(par_min)] is not run. *)
Theorem optimize_restarts_interrupted (restarts : Z) (j : nat)
    (s s0 sj s' : st) (v0 : float) (g0 : list float)
    (acc : list float * float * option (list float)) :
  recompile_if_needed s = (Ok tt, s0) ->
  gp_objective s0 (free_state s0) = Ok (v0, g0) ->
  (j < Z.to_nat restarts)%nat ->
  for_from 0 j (restart_step (gp_objective s0)) (free_state s0, v0, None) s0 =
    (Ok acc, sj) ->
  trial_body (gp_objective s0) sj = (Raise KeyboardInterrupt, s') ->
  optimize_restarts (VInt restarts) s = (Raise KeyboardInterrupt, s').
Proof.
  intros Hc Hobj Hj Hfor Hbody.
  rewrite (optimize_restarts_unfold restarts s s0 v0 g0 Hc Hobj).
  replace (Z.to_nat restarts) with (j + S (Z.to_nat restarts - S j))%nat
    by lia.
  apply bind_raise. rewrite for_from_app. rewrite (bind_ok _ _ _ _ _ Hfor).
  simpl. apply bind_raise.
  destruct acc as [[par val] x]. unfold restart_step. apply bind_raise.
  pose proof (restart_trial_cases (gp_objective s0) x sj) as Ht.
  by rewrite Hbody in Ht.
Qed.

(** X8. The incumbent of the restarts is a minimum.  After a restart
    that returned, its value is not strictly below the incumbent, which is
    the one before or the trial's own result; and what is not strictly
    below the incumbent at some restart is not strictly below any later
    incumbent. *)
Theorem restart_incumbent_is_minimal (obj : objective_fn) :
  (forall i par val x s x1 v s1,
      trial_body obj s = (Ok (x1, v), s1) ->
      exists par' val',
        restart_step obj i (par, val, x) s =
          (Ok (par', val', Some x1), s1) /\
        flt v val' = false /\
        ((par', val') = (par, val) \/ (par', val') = (x1, v))) /\
  (forall n i par val x s par' val' x' s',
      for_from i n (restart_step obj) (par, val, x) s =
        (Ok (par', val', x'), s') ->
      forall w, flt w val = false -> flt w val' = false).
Proof.
  split.
  - intros i par val x s x1 v s1 Hbody.
    pose proof (restart_trial_cases obj x s) as Ht. rewrite Hbody in Ht.
    unfold restart_step, restart_update. unfold bind at 1. rewrite Ht. simpl.
    unfold bind, ret. destruct (flt v val) eqn:Hlt; simpl.
    + exists x1, v. split; [reflexivity|]. split; [apply flt_irrefl | auto].
    + exists par, val. auto.
  - intros n i par val x s par' val' x' s' Hfor.
    assert (Hloop : outcome
      (for_from i n (restart_step obj) (par, val, x) s)
      (fun acc _ => forall w, flt w val = false ->
                               flt w (snd (fst acc)) = false)
      (fun e _ => e = KeyboardInterrupt)).
    { apply (restart_loop obj
        (fun _ val1 => forall w, flt w val = false -> flt w val1 = false)).
      - intros p1 v1 p2 v2 g HP _ Hlt w Hw.
        exact (flt_not_below w v1 v2 (HP w Hw) Hlt).
      - auto. }
    rewrite Hfor in Hloop. exact Hloop.
Qed.

(** X9. A NaN at entry is never replaced: when the objective of the entry
    state is NaN, every comparison of line 163 is false, and unless it is
    interrupted [optimize_restarts] returns with the entry parameters,
    whatever the restarts found. *)
Theorem optimize_restarts_nan_entry (restarts : Z) (s s0 : st)
    (g0 : list float) :
  recompile_if_needed s = (Ok tt, s0) ->
  gp_objective s0 (free_state s0) = Ok (S754_nan, g0) ->
  fst (optimize_restarts (VInt restarts) s) = Raise KeyboardInterrupt \/
  exists s',
    optimize_restarts (VInt restarts) s = (Ok tt, s') /\
    free_state s' = free_state s0.
Proof.
  intros Hc Hobj.
  pose proof (optimize_restarts_run
    (fun par val => par = free_state s0 /\ val = S754_nan)
    restarts s s0 S754_nan g0 Hc Hobj (conj eq_refl eq_refl)) as Hrun.
  assert (Hstep : forall par val par' val' (g : list float),
    par = free_state s0 /\ val = S754_nan ->
    gp_objective s0 par' = Ok (val', g) -> flt val' val = true ->
    par' = free_state s0 /\ val' = S754_nan).
  { intros par val par' val' g [_ ->] _ Hlt. rewrite flt_nan_r in Hlt.
    discriminate. }
  specialize (Hrun Hstep). unfold outcome in Hrun.
  destruct (optimize_restarts (VInt restarts) s) as [[[]|e] s'].
  - right. destruct Hrun as (v1 & Hpar & _). eauto.
  - left. simpl. by f_equal.
Qed.

(** X10. No restart runs when the entry cannot be evaluated: an exception
    of the recompilation or of the objective at the entry parameters leaves
    [optimize_restarts] as it is, before any randomisation; and a restart
    count that is no integer raises [TypeError] only after both, with the
    parameters untouched. *)
Theorem optimize_restarts_entry_errors (restarts : pyval) (s : st) :
  (forall e s1,
      recompile_if_needed s = (Raise e, s1) ->
      optimize_restarts restarts s = (Raise e, s1)) /\
  (forall s0 e,
      recompile_if_needed s = (Ok tt, s0) ->
      gp_objective s0 (free_state s0) = Raise e ->
      optimize_restarts restarts s = (Raise e, s0)) /\
  (forall s0 v0 g0,
      recompile_if_needed s = (Ok tt, s0) ->
      gp_objective s0 (free_state s0) = Ok (v0, g0) ->
      py_index restarts = Raise TypeError ->
      optimize_restarts restarts s = (Raise TypeError, s0)).
Proof.
  split; [|split].
  - intros e s1 Hc. unfold optimize_restarts. by apply bind_raise.
  - intros s0 e Hc Hobj. unfold optimize_restarts.
    rewrite (bind_ok _ _ _ _ _ Hc).
    unfold bind, get_state, get_free_state, lift. by rewrite Hobj.
  - intros s0 v0 g0 Hc Hobj Hidx. unfold optimize_restarts.
    rewrite (bind_ok _ _ _ _ _ Hc).
    unfold bind, get_state, get_free_state, lift, py_range.
    by rewrite Hobj, Hidx.
Qed.

End FitterEdges.

(** ** The acquisition optimiser: shape, errors and the minimum *)

Section SuggestionEdges.
Context `{Collaborators} `{!NumpyLaws}.

(** Without [nl_solver] the solver call of a trial raises [KeyError], which
    the handler catches: no trial leaves a candidate. *)
Lemma suggestion_loop_no_solver (self : BO) (batch_size : pyval)
    (bounds_tiled : bounds_t) (n i : nat) (s : st) :
  options self !! "nl_solver" = None ->
  outcome (for_from i n (suggestion_step self batch_size bounds_tiled) None s)
    (fun inc _ => inc = None) (fun _ _ => True).
Proof.
  intros Hsolver.
  apply (for_from_rule (suggestion_step self batch_size bounds_tiled)
           (fun _ inc (_ : st) => inc = None) (fun _ _ => True) n i None s
           eq_refl).
  intros j inc s0 _ ->. unfold suggestion_step. unfold bind at 1.
  destruct (random_sample (bounds self) batch_size s0) as [[X_init|e] s1];
    [|exact I].
  unfold try_except, solver_call, bind, lift, getitem. rewrite Hsolver.
  reflexivity.
Qed.

(** With a finite width in every dimension the sampler returns at every
    trial, and the loop ends without a candidate. *)
Lemma suggestion_loop_no_solver_run (self : BO) (b : Z)
    (bounds_tiled : bounds_t) (n : nat) :
  0 <= b ->
  forallb finite_range (bounds self) = true ->
  options self !! "nl_solver" = None ->
  forall i s,
  exists s',
    for_from i n (suggestion_step self (VInt b) bounds_tiled) None s =
    (Ok None, s').
Proof.
  intros Hb Hfin Hsolver. induction n as [|n IH]; intros i s; simpl.
  - by exists s.
  - destruct (random_sample_draws (bounds self) b s Hb Hfin)
      as (X_init & Hs & _).
    assert (Hcall : solver_call self X_init bounds_tiled
                      (snd (column_draws (bounds self) (Z.to_nat b) s)) =
                    (Raise KeyError, snd (column_draws (bounds self)
                                            (Z.to_nat b) s))).
    { unfold solver_call, bind, lift, getitem. by rewrite Hsolver. }
    rewrite (bind_ok _ _ _ _ _
               (suggestion_step_failed self (VInt b) bounds_tiled i None s _ _
                  X_init KeyError Hs Hcall ltac:(discriminate))).
    apply IH.
Qed.

(** X11. A configuration without [nl_solver] is not reported as such: the
    [KeyError] of line 112 is raised inside the [try] of every trial and
    swallowed, so [get_suggestion] returns no batch, and when the sampler
    returns at every trial (a finite width in every dimension) it ends with
    the assertion error of line 126.  A missing [opt_restarts], read
    outside the [try], raises [KeyError] with the state untouched.  A
    negative batch size raises [ValueError] with the state untouched: in
    [np.tile] when there are bounds, and with empty bounds, which
    [np.tile] accepts, in [np.zeros] at the first trial; without a trial
    the assertion fails instead. *)
Theorem get_suggestion_missing_options (self : BO) (b : Z) (s : st) :
  0 <= b ->
  (forall n,
      options self !! "opt_restarts" = Some (VInt n) ->
      options self !! "nl_solver" = None ->
      is_ok (fst (get_suggestion self (VInt b) s)) = false /\
      (forallb finite_range (bounds self) = true ->
       exists s',
         get_suggestion self (VInt b) s = (Raise AssertionError, s'))) /\
  (options self !! "opt_restarts" = None ->
   get_suggestion self (VInt b) s = (Raise KeyError, s)) /\
  (forall b', b' < 0 ->
      bounds self <> [] ->
      get_suggestion self (VInt b') s = (Raise ValueError, s)) /\
  (forall b' n, b' < 0 ->
      bounds self = [] ->
      options self !! "opt_restarts" = Some (VInt n) ->
      get_suggestion self (VInt b') s =
        (Raise (if decide (1 <= n) then ValueError else AssertionError), s)).
Proof.
  intros Hb. split; [|split; [|split]].
  - intros n Hn Hsolver.
    rewrite (get_suggestion_unfold self b n s Hb Hn). split.
    + pose proof (suggestion_loop_no_solver self (VInt b)
                    (np_tile (bounds self) (Z.to_nat b)) (Z.to_nat n) 0 s
                    Hsolver) as Hloop.
      unfold bind.
      destruct (for_from 0 (Z.to_nat n) _ None s) as [[inc|e] s'];
        [|reflexivity].
      simpl in Hloop. by subst inc.
    + intros Hfin.
      destruct (suggestion_loop_no_solver_run self b
                  (np_tile (bounds self) (Z.to_nat b)) (Z.to_nat n) Hb Hfin
                  Hsolver 0%nat s) as [s' Hloop].
      exists s'. by rewrite (bind_ok _ _ _ _ _ Hloop).
  - intros Hn. unfold get_suggestion.
    rewrite (tile_bounds_count _ _ Hb).
    unfold bind, lift, getitem. by rewrite Hn.
  - intros b' Hb' Hne. unfold get_suggestion, tile_bounds, bind, lift. simpl.
    destruct (decide (b' = 1)) as [?|_]; [lia|].
    destruct (decide (bounds self = [])) as [?|_]; [contradiction|].
    destruct (Z.ltb_spec b' 0) as [_|?]; [reflexivity | lia].
  - intros b' n Hb' Hnil Hn.
    unfold get_suggestion, tile_bounds, py_range, getitem, for_range. simpl.
    destruct (decide (b' = 1)) as [?|_]; [lia|].
    destruct (decide (bounds self = [])) as [_|?]; [|contradiction].
    unfold bind at 1. unfold lift at 1. unfold bind at 1. unfold lift at 1.
    rewrite Hn. unfold bind at 1. unfold lift at 1. simpl.
    destruct (decide (1 <= n)) as [Hn1|Hn0].
    + destruct (Z.to_nat n) as [|m] eqn:Hm; [lia|]. simpl.
      unfold suggestion_step at 1, random_sample at 1, py_count.
      destruct (Z.ltb_spec b' 0) as [_|?]; [|lia].
      reflexivity.
    + replace (Z.to_nat n) with 0%nat by lia. reflexivity.
Qed.

(** X12. An interrupt during a trial discards the candidates found so
    far: when the solver call of the trial after [j] completed ones is
    interrupted, [get_suggestion] raises [KeyboardInterrupt] in the state the
    solver left, also when an earlier trial had succeeded. *)
Theorem get_suggestion_interrupted (self : BO) (b n : Z) (j : nat)
    (s sj s1 s2 : st) (inc : option (matrix * float)) (X_init : matrix) :
  0 <= b ->
  options self !! "opt_restarts" = Some (VInt n) ->
  (j < Z.to_nat n)%nat ->
  for_from 0 j
    (suggestion_step self (VInt b) (np_tile (bounds self) (Z.to_nat b)))
    None s = (Ok inc, sj) ->
  random_sample (bounds self) (VInt b) sj = (Ok X_init, s1) ->
  solver_call self X_init (np_tile (bounds self) (Z.to_nat b)) s1 =
    (Raise KeyboardInterrupt, s2) ->
  get_suggestion self (VInt b) s = (Raise KeyboardInterrupt, s2).
Proof.
  intros Hb Hn Hj Hfor Hs Hcall.
  rewrite (get_suggestion_unfold self b n s Hb Hn).
  replace (Z.to_nat n) with (j + S (Z.to_nat n - S j))%nat by lia.
  apply bind_raise. rewrite for_from_app. rewrite (bind_ok _ _ _ _ _ Hfor).
  simpl. apply bind_raise.
  pose proof (suggestion_step_cases self (VInt b)
                (np_tile (bounds self) (Z.to_nat b)) (0 + j) inc sj s1
                X_init Hs) as Hc.
  by rewrite Hcall in Hc.
Qed.

End SuggestionEdges.

Section SuggestionMinimum.
Context `{Collaborators}.

(** X13. The incumbent of [get_suggestion] is a minimum.  After a trial
    whose solver call returned [(X0, y0)], [y0] is not strictly below the
    incumbent, which is the one before or [(X0, y0)]; and what is not
    strictly below the incumbent at some trial is not strictly below any
    later incumbent, which stays set. *)
Theorem suggestion_incumbent_is_minimal (self : BO) (batch_size : pyval)
    (bounds_tiled : bounds_t) :
  (forall j inc s X_init s1 X0 y0 status s2,
      random_sample (bounds self) batch_size s = (Ok X_init, s1) ->
      solver_call self X_init bounds_tiled s1 = (Ok (X0, y0, status), s2) ->
      exists X' y',
        suggestion_step self batch_size bounds_tiled j inc s =
          (Ok (Some (X', y')), s2) /\
        flt y0 y' = false /\
        (Some (X', y') = inc \/ (X', y') = (X0, y0))) /\
  (forall n i X y s inc' s',
      for_from i n (suggestion_step self batch_size bounds_tiled)
        (Some (X, y)) s = (Ok inc', s') ->
      exists X' y',
        inc' = Some (X', y') /\
        forall w, flt w y = false -> flt w y' = false).
Proof.
  split.
  - intros j inc s X_init s1 X0 y0 status s2 Hs Hcall.
    pose proof (suggestion_step_cases self batch_size bounds_tiled j inc s s1
                  X_init Hs) as Hc.
    rewrite Hcall in Hc. rewrite Hc. unfold suggestion_update.
    destruct inc as [[X y]|].
    + destruct (flt y0 y) eqn:Hlt.
      * exists X0, y0. split; [reflexivity|].
        split; [apply flt_irrefl | auto].
      * exists X, y. auto.
    + exists X0, y0. split; [reflexivity|]. split; [apply flt_irrefl | auto].
  - intros n i X y s inc' s' Hfor.
    assert (Hloop : outcome
      (for_from i n (suggestion_step self batch_size bounds_tiled)
         (Some (X, y)) s)
      (fun inc1 _ => exists X' y',
         inc1 = Some (X', y') /\
         forall w, flt w y = false -> flt w y' = false)
      (fun _ _ => True)).
    { pose proof (for_from_rule
        (suggestion_step self batch_size bounds_tiled)
        (fun _ inc1 (_ : st) => exists X' y',
           inc1 = Some (X', y') /\
           forall w, flt w y = false -> flt w y' = false)
        (fun _ _ => True) n i (Some (X, y)) s) as Hrule.
      apply Hrule; [by exists X, y|].
      intros j inc1 s1 _ (X1 & y1 & -> & Hmin).
      unfold suggestion_step. unfold bind at 1.
      destruct (random_sample (bounds self) batch_size s1)
        as [[X_init|e] s2] eqn:Hs; [|exact I].
      unfold try_except, bind, ret.
      destruct (solver_call self X_init bounds_tiled s2)
        as [[[[X0 y0] status]|e] s3]; simpl.
      - destruct (flt y0 y1) eqn:Hlt.
        + exists X0, y0. split; [reflexivity|].
          intros w Hw. exact (flt_not_below w y1 y0 (Hmin w Hw) Hlt).
        + exists X1, y1. auto.
      - destruct e; simpl; eauto. }
    rewrite Hfor in Hloop. exact Hloop.
Qed.

End SuggestionMinimum.

Section SuggestionShape.
Context `{Collaborators} `{!NumpyLaws} `{!ShapeLaws}.

(** X14. The batch [get_suggestion] returns has the shape
    [(batch_size, dim)], when the solver returns batches of the shape of
    their initial point. *)
Theorem get_suggestion_shape (self : BO) (b : Z) (s s' : st) (X : matrix) :
  0 <= b ->
  get_suggestion self (VInt b) s = (Ok X, s') ->
  nrows X = Z.to_nat b /\ ncols X = length (bounds self).
Proof.
  intros Hb Hrun.
  split; [exact (get_suggestion_rows self b s s' X Hb Hrun)|].
  unfold get_suggestion in Hrun.
  apply bind_inv_ok in Hrun as (reps & s1 & Hreps & Hrun).
  apply bind_inv_ok in Hrun as (restarts & s2 & Hrestarts & Hrun).
  apply bind_inv_ok in Hrun as (m & s3 & Hm & Hrun).
  apply bind_inv_ok in Hrun as (inc & s4 & Hfor & Hrun).
  apply lift_inv_ok in Hreps as [_ ->].
  apply lift_inv_ok in Hrestarts as [_ ->].
  apply lift_inv_ok in Hm as [_ ->].
  pose proof (for_from_rule
    (suggestion_step self (VInt b) reps)
    (fun _ inc (_ : st) =>
       forall X y, inc = Some (X, y) -> ncols X = length (bounds self))
    (fun _ _ => True) m 0%nat None s) as Hloop.
  unfold for_range in Hfor. rewrite Hfor in Hloop. simpl in Hloop.
  destruct inc as [[X' y']|]; [|discriminate].
  inversion Hrun; subst X'. apply Hloop with (y := y'); auto.
  - discriminate.
  - intros j inc s0 _ Hinc.
    destruct (random_sample_cases (bounds self) b s0 Hb)
      as [(X_init & Hs & _ & _ & Hcols & _)|(s1 & Hs & _)];
      [|unfold suggestion_step; by rewrite (bind_raise _ _ _ _ _ Hs)].
    pose proof (suggestion_step_cases self (VInt b)
                  reps j inc s0 _ X_init Hs) as Hc.
    destruct (solver_call self X_init _ _) as [[[[X0 y0] st0]|e] s5] eqn:Hcall.
    + rewrite Hc. simpl.
      unfold solver_call in Hcall.
      apply bind_inv_ok in Hcall as (solver & s6 & _ & Hcall).
      apply solve_shape in Hcall as [_ Hc0].
      intros X1 y1. unfold suggestion_update.
      destruct inc as [[Xi yi]|].
      * destruct (flt y0 yi); intros [= <- <-]; [congruence | eauto].
      * intros [= <- <-]. congruence.
    + destruct e; rewrite Hc; simpl; auto.
Qed.

End SuggestionShape.

(** ** The constructor: where it fails and what it has written by then *)

Section ConstructorEdges.
Context `{Collaborators}.

Lemma with_mean_default_idem (d : gmap string pyval) :
  with_mean_default (with_mean_default d) = with_mean_default d.
Proof.
  unfold with_mean_default at 1. by rewrite with_mean_default_mean.
Qed.

(** X15. The points of failure of [__init__].  A configuration without
    [objective], or whose [objective] has no [bounds], fails at line 16 and
    the caller's dictionary is as it was.  A missing [kernel] fails at line
    23, after line 20 has written [mean_function] into the caller's
    dictionary.  A missing [noise] fails at line 36, after the copy for
    [self.options] was made. *)
Theorem BO_init_failure_points (caller : loc) (h : dheap)
    (d : gmap string pyval) :
  h !! caller = Some d ->
  (d !! "objective" = None -> BO_init caller h = (Raise KeyError, h)) /\
  (forall v,
      d !! "objective" = Some v ->
      (forall ob, v <> VObjective ob) ->
      BO_init caller h = (Raise AttributeError, h)) /\
  (forall ob,
      d !! "objective" = Some (VObjective ob) ->
      d !! "kernel" = None ->
      BO_init caller h =
        (Raise KeyError, <[caller := with_mean_default d]> h)) /\
  (forall ob kern its bs isz hess lik,
      d !! "objective" = Some (VObjective ob) ->
      d !! "kernel" = Some kern ->
      d !! "iterations" = Some its ->
      d !! "batch_size" = Some bs ->
      d !! "initial_size" = Some isz ->
      d !! "hessian" = Some hess ->
      GPR_init (np_zeros 0 (length (objective_bounds ob)))
               (np_zeros 0 (length (objective_bounds ob))) kern
               (default VNone (d !! "mean_function")) = Ok lik ->
      d !! "noise" = None ->
      exists copy,
        BO_init caller h =
          (Raise KeyError,
           <[copy := with_mean_default d]>
             (<[caller := with_mean_default d]> h)) /\
        h !! copy = None /\ copy <> caller).
Proof.
  intros Hl. split; [|split; [|split]].
  - intros Hobj. unfold BO_init.
    by rewrite (bind_getitem_ref _ _ _ _ _ Hl), Hobj.
  - intros v Hobj Hv. unfold BO_init.
    rewrite (bind_getitem_ref _ _ _ _ _ Hl), Hobj, bind_lift.
    destruct v; try reflexivity. by destruct (Hv o).
  - intros ob Hobj Hk.
    rewrite (BO_init_eq caller h d ob Hl Hobj). simpl. by rewrite Hk.
  - intros ob kern its bs isz hess lik Hobj Hk Hits Hbs Hisz Hhess Hgpr Hn.
    rewrite (BO_init_eq caller h d ob Hl Hobj). simpl.
    rewrite Hk, Hgpr, Hits, Hbs, Hisz, Hhess, Hn.
    eexists. split; [reflexivity|].
    pose proof (fresh_loc_unused (<[caller := with_mean_default d]> h))
      as Hfresh.
    assert (Hne : fresh (dom (<[caller := with_mean_default d]> h)) <> caller).
    { intros Heq. rewrite Heq, lookup_insert_eq in Hfresh. discriminate. }
    split; [|exact Hne]. by rewrite lookup_insert_ne in Hfresh.
Qed.

(** X16. Building a second object from the same dictionary.  After a
    construction that returned, a second construction from the caller's
    dictionary returns too, leaves that dictionary and the first object's
    [self.options] as they are, and gives an object with the same
    attributes and a dictionary object of its own. *)
Theorem BO_init_twice (caller : loc) (h h1 : dheap) (d : gmap string pyval)
    (ob : objective) (bo1 : BO) :
  h !! caller = Some d ->
  d !! "objective" = Some (VObjective ob) ->
  BO_init caller h = (Ok bo1, h1) ->
  exists bo2 h2,
    BO_init caller h1 = (Ok bo2, h2) /\
    h2 !! caller = h1 !! caller /\
    h2 !! options_ref bo1 = Some (options bo1) /\
    h2 !! options_ref bo2 = Some (options bo2) /\
    options_ref bo2 <> options_ref bo1 /\
    options_ref bo2 <> caller /\
    bo2 = MkBO (bounds bo1) (dim bo1) (iterations bo1) (batch_size bo1)
               (initial_size bo1) (hessian bo1) (options bo1)
               (options_ref bo2) (likelihood_variance bo1).
Proof.
  intros Hl Hobj Hrun.
  rewrite (BO_init_eq caller h d ob Hl Hobj) in Hrun. simpl in Hrun.
  set (d' := with_mean_default d) in *.
  set (h0 := <[caller := d']> h) in *.
  set (c1 := fresh (dom h0)) in *.
  destruct (d !! "kernel") as [kern|] eqn:Hk; [|discriminate].
  destruct (GPR_init _ _ kern _) as [lik|] eqn:Hgpr; [|discriminate].
  destruct (d !! "iterations") as [its|] eqn:Hits; [|discriminate].
  destruct (d !! "batch_size") as [bs|] eqn:Hbs; [|discriminate].
  destruct (d !! "initial_size") as [isz|] eqn:Hisz; [|discriminate].
  destruct (d !! "hessian") as [hess|] eqn:Hhess; [|discriminate].
  destruct (d !! "noise") as [noise|] eqn:Hnoise; [|discriminate].
  inversion Hrun; subst bo1 h1. clear Hrun. simpl.
  assert (Hc1 : h0 !! c1 = None) by apply fresh_loc_unused.
  assert (Hl0 : h0 !! caller = Some d') by apply lookup_insert_eq.
  assert (Hne1 : c1 <> caller) by congruence.
  assert (Hl1 : <[c1 := d']> h0 !! caller = Some d').
  { by rewrite lookup_insert_ne. }
  assert (Hobj' : d' !! "objective" = Some (VObjective ob)).
  { unfold d'. by rewrite with_mean_default_other. }
  assert (Hother : forall k, k <> "mean_function" -> d' !! k = d !! k).
  { intros k Hkne. unfold d'. by apply with_mean_default_other. }
  assert (Hmean : default VNone (d' !! "mean_function") =
                  default VNone (d !! "mean_function")).
  { unfold d'. by rewrite with_mean_default_mean. }
  assert (Hidem : with_mean_default d' = d').
  { unfold d'. apply with_mean_default_idem. }
  rewrite (BO_init_eq caller (<[c1 := d']> h0) d' ob Hl1 Hobj'). simpl.
  rewrite Hmean, Hidem, !Hother by done.
  rewrite Hk, Hgpr, Hits, Hbs, Hisz, Hhess, Hnoise.
  rewrite (insert_id (<[c1 := d']> h0) caller d' Hl1).
  set (c2 := fresh (dom (<[c1 := d']> h0))).
  assert (Hc2 : <[c1 := d']> h0 !! c2 = None) by apply fresh_loc_unused.
  assert (Hne2 : c2 <> c1).
  { intros Heq. rewrite Heq, lookup_insert_eq in Hc2. discriminate. }
  assert (Hne3 : c2 <> caller) by congruence.
  eexists _, _. split; [reflexivity|]. simpl.
  rewrite !lookup_insert_eq, !(lookup_insert_ne _ c2) by congruence.
  rewrite lookup_insert_eq.
  repeat split; auto.
Qed.

End ConstructorEdges.

(** ** The main loop: the model's data and the initial design *)

Tactic Notation "bind_ok_in" hyp(H) "as" ident(a) ident(s) ident(Ha) :=
  apply bind_inv_ok in H as (a & s & Ha & H).

Section LoopInvariants.
Context `{Collaborators}.

Lemma assign_data_sync (self : BO) (X y Y' : matrix) (s0 s1 s2 s3 : st)
    (u1 u2 : unit) :
  set_X X s0 = (Ok u1, s1) ->
  lift (normalize_value self (slice_col0 y)) s1 = (Ok Y', s2) ->
  set_Y Y' s2 = (Ok u2, s3) ->
  in_sync self (X, y) s3.
Proof.
  unfold set_X, set_Y, modify, lift. intros HX HY HsY.
  inversion HX; subst. inversion HY; subst. inversion HsY; subst.
  split; simpl; auto.
Qed.

Lemma bo_iteration_sync (self : BO) (obj : objective) (i : nat)
    (data data' : matrix * matrix) (s s' : st) :
  bo_iteration self obj i data s = (Ok data', s') ->
  in_sync self data' s'.
Proof.
  intros Hrun. unfold bo_iteration in Hrun. destruct data as [X_all y_all].
  bind_ok_in Hrun as restarts s1 E1. bind_ok_in Hrun as u2 s2 E2.
  bind_ok_in Hrun as samples s3 E3. bind_ok_in Hrun as sampling s4 E4.
  bind_ok_in Hrun as u5 s5 E5. bind_ok_in Hrun as X_new s6 E6.
  bind_ok_in Hrun as y_new s7 E7. bind_ok_in Hrun as X1 s8 E8.
  bind_ok_in Hrun as y1 s9 E9. bind_ok_in Hrun as u10 s10 E10.
  bind_ok_in Hrun as Y' s11 E11. bind_ok_in Hrun as u12 s12 E12.
  unfold ret in Hrun. inversion Hrun; subst.
  exact (assign_data_sync self X1 y1 Y' _ _ _ _ _ _ E10 E11 E12).
Qed.

Lemma bo_initialize_sync (self : BO) (obj : objective)
    (data : matrix * matrix) (s s' : st) :
  bo_initialize self s = (Ok (obj, data), s') ->
  in_sync self data s'.
Proof.
  intros Hrun. unfold bo_initialize in Hrun.
  bind_ok_in Hrun as o t1 E1. bind_ok_in Hrun as X0 t2 E2.
  bind_ok_in Hrun as ob t3 E3. bind_ok_in Hrun as y0 t4 E4.
  bind_ok_in Hrun as u5 t5 E5. bind_ok_in Hrun as Y0 t6 E6.
  bind_ok_in Hrun as u7 t7 E7.
  unfold ret in Hrun. inversion Hrun; subst.
  exact (assign_data_sync self X0 y0 Y0 _ _ _ _ _ _ E5 E6 E7).
Qed.

(** X17. The model's training data follows the history.  When the loop
    returns [(X_all, y_all)], [self.X] is [X_all] and [self.Y] is the
    normalised first column of [y_all]: it has the rows of [y_all] and at
    most one column, so the auxiliary columns never reach the model. *)
Theorem model_data_follows_history (self : BO) (s s' : st)
    (X_all y_all : matrix) :
  bo_loop self s = (Ok (X_all, y_all), s') ->
  self_X s' = X_all /\
  normalize_value self (slice_col0 y_all) = Ok (self_Y s') /\
  nrows (self_Y s') = nrows y_all /\
  ncols (self_Y s') = Nat.min 1 (ncols y_all).
Proof.
  intros Hrun. unfold bo_loop in Hrun.
  bind_ok_in Hrun as init s1 Hinit. bind_ok_in Hrun as n s2 Hn.
  apply lift_inv_ok in Hn as [_ ->]. destruct init as [obj data].
  apply bo_initialize_sync in Hinit.
  assert (Hsync : in_sync self (X_all, y_all) s').
  { pose proof (for_from_rule (bo_iteration self obj)
      (fun _ d s0 => in_sync self d s0) (fun _ _ => True)
      n 0%nat data s1 Hinit) as Hloop.
    unfold for_range in Hrun. simpl in Hrun. rewrite Hrun in Hloop.
    apply Hloop. intros j d s0 _ _. unfold outcome.
    destruct (bo_iteration self obj j d s0) as [[d'|e] s3] eqn:Hit; [|exact I].
    by apply bo_iteration_sync in Hit. }
  destruct Hsync as [HX HY]. simpl in HX, HY.
  destruct (normalize_value_shape self _ _ HY) as [Hc Hr].
  repeat split; auto.
  rewrite Hr. unfold nrows, slice_col0. simpl. apply length_map.
Qed.

End LoopInvariants.

Section InitialDesign.
Context `{Collaborators} `{!NumpyLaws} `{!ShapeLaws}.

(** X18. The history starts with the initial design.  In the history the
    loop returns, the first [initial_size] rows of [X_all] are the initial
    random sample and lie within the bounds, whatever the solver proposed
    later; and with an iteration count [n <= 0], negative ones included, the
    history is that sample alone. *)
Theorem history_starts_with_initial_design (self : BO) (n b isz : Z)
    (s s' : st) (X_all y_all : matrix) :
  iterations self = VInt n ->
  batch_size self = VInt b ->
  initial_size self = VInt isz ->
  0 <= b -> 0 <= isz ->
  Forall (fun b => fle (fst b) (snd b) = true) (bounds self) ->
  bo_loop self s = (Ok (X_all, y_all), s') ->
  (exists X0 s0,
      random_sample (bounds self) (VInt isz) s = (Ok X0, s0) /\
      take (Z.to_nat isz) (rows X_all) = rows X0) /\
  (forall r i lo hi x,
      r ∈ take (Z.to_nat isz) (rows X_all) ->
      bounds self !! i = Some (lo, hi) -> r !! i = Some x ->
      fle lo x = true /\ fle x hi = true) /\
  (n <= 0 ->
   nrows X_all = Z.to_nat isz /\ nrows y_all = Z.to_nat isz).
Proof.
  intros Hits Hbs Hisz Hb Hs Hord Hrun. unfold bo_loop in Hrun.
  bind_ok_in Hrun as init s1 Hinit. bind_ok_in Hrun as m s2 Hm.
  rewrite Hits in Hm. apply lift_inv_ok in Hm as [Hr ->].
  simpl in Hr. inversion Hr; subst m. clear Hr.
  unfold bo_initialize in Hinit. rewrite Hisz in Hinit.
  bind_ok_in Hinit as o t1 E1. bind_ok_in Hinit as X0 t2 E2.
  bind_ok_in Hinit as obj t3 E3. bind_ok_in Hinit as y0 t4 E4.
  bind_ok_in Hinit as u5 t5 E5. bind_ok_in Hinit as Y0 t6 E6.
  bind_ok_in Hinit as u7 t7 E7.
  unfold ret in Hinit. inversion Hinit; subst. simpl in Hrun.
  apply lift_inv_ok in E1 as [_ ->].
  destruct (random_sample_returned (bounds self) isz s t2 X0 Hs E2)
    as (_ & _ & HrX0 & _).
  apply objective_f_rows in E4.
  destruct (bo_iterations_from self obj b (Z.to_nat n) 0
              (X0, y0) (X_all, y_all) s1 s' Hbs Hb Hrun)
    as (eX & eY & HX & HY & HlX & HlY).
  simpl in HX, HY.
  assert (Htake : take (Z.to_nat isz) (rows X_all) = rows X0).
  { rewrite HX. unfold nrows in HrX0.
    rewrite take_app_length'; [reflexivity | by symmetry]. }
  split; [|split].
  - exists X0, t2. auto.
  - rewrite Htake. intros r i lo hi x.
    exact (random_sample_coordinates (bounds self) isz s t2 X0 Hs Hord E2
             r i lo hi x).
  - intros Hn. replace (Z.to_nat n) with 0%nat in * by lia.
    simpl in HlX, HlY.
    destruct eX; [|discriminate]. destruct eY; [|discriminate].
    unfold nrows in *. rewrite HX, HY, !app_nil_r. lia.
Qed.

End InitialDesign.

(** ** The further properties on concrete inputs *)

Lemma acquisition_reshape_lossless_witness :
  dim Demo.a_bo <> 0%nat /\
  (np_size (Flat Cases.six_values) mod dim Demo.a_bo = 0)%nat /\
  exists X,
    @acquisition Demo.doubles Cases.acquisition_double Demo.a_bo
      (Flat Cases.six_values) Demo.a_state =
      (Finished (fst (@acquisition_tf Demo.doubles Cases.acquisition_double
                        X Demo.a_state)),
       snd (@acquisition_tf Demo.doubles Cases.acquisition_double
              X Demo.a_state)) /\
    nrows X = 3%nat /\ ncols X = 2%nat /\
    concat (rows X) = Cases.six_values.
Proof.
  assert (H1 : dim Demo.a_bo <> 0%nat) by discriminate.
  assert (H2 : (np_size (Flat Cases.six_values) mod dim Demo.a_bo = 0)%nat)
    by reflexivity.
  do 2 (split; [assumption|]).
  destruct (@acquisition_reshape_lossless Demo.doubles
              Cases.acquisition_double Demo.a_bo (Flat Cases.six_values)
              Demo.a_state H1 I H2) as (X & Hrun & Hr & Hc & _ & Hflat).
  exists X. auto.
Defined.

Lemma acquisition_flat_or_batch_witness :
  dim Demo.a_bo <> 0%nat /\
  wf_matrix Demo.observations /\
  ncols Demo.observations = dim Demo.a_bo /\
  @acquisition Demo.doubles Cases.acquisition_double Demo.a_bo
    (Flat (concat (rows Demo.observations))) Demo.a_state =
  @acquisition Demo.doubles Cases.acquisition_double Demo.a_bo
    (Batch Demo.observations) Demo.a_state.
Proof.
  assert (H1 : dim Demo.a_bo <> 0%nat) by discriminate.
  assert (H2 : wf_matrix Demo.observations) by (repeat constructor).
  assert (H3 : ncols Demo.observations = dim Demo.a_bo) by reflexivity.
  do 3 (split; [assumption|]).
  exact (proj2 (@acquisition_flat_or_batch Demo.doubles
                  Cases.acquisition_double Demo.a_bo Demo.observations
                  Demo.a_state H1 H2 H3)).
Defined.

Lemma random_sample_unchecked_witness :
  @random_sample Demo.doubles Demo.unit_bounds (VInt (-1)) Demo.a_state =
    (Raise ValueError, Demo.a_state) /\
  0 <= 0 /\
  finite_range (SFopp Cases.float_max, Cases.float_max) = false /\
  @random_sample Demo.doubles Cases.wide_bounds (VInt 0) Demo.a_state =
    (Raise OverflowError, Demo.a_state).
Proof.
  pose proof (@random_sample_unchecked Demo.doubles doubles_numpy_laws
                Demo.unit_bounds Demo.a_state)
    as (Hneg & _ & _ & _ & Hfirst & _).
  assert (H0 : 0 <= 0) by lia.
  assert (Hf : finite_range (SFopp Cases.float_max, Cases.float_max) = false)
    by reflexivity.
  split; [apply Hneg; lia|]. split; [exact H0|]. split; [exact Hf|].
  exact (Hfirst 0 (SFopp Cases.float_max) Cases.float_max [] H0 Hf).
Defined.

Lemma normalize_errors_witness :
  ({[1%positive := Cases.no_columns]} : gmap loc matrix) !! 1%positive =
    Some Cases.no_columns /\
  fst (@normalize Demo.doubles Demo.a_bo 1%positive
         {[1%positive := Cases.no_columns]}) = Raise IndexError.
Proof.
  assert (H1 : ({[1%positive := Cases.no_columns]} : gmap loc matrix)
                 !! 1%positive = Some Cases.no_columns) by reflexivity.
  split; [exact H1|].
  apply (proj1 (proj2 (@normalize_errors Demo.doubles Demo.a_bo 1%positive _
                         Cases.no_columns H1)) (VBool true));
    reflexivity.
Defined.

Lemma optimize_restarts_interrupted_witness :
  exists s',
    @optimize_restarts Cases.interrupted (VInt 2) Demo.a_state =
      (Raise KeyboardInterrupt, s') /\
    free_state s' <> free_state Demo.a_state.
Proof.
  eexists. split.
  - eapply (@optimize_restarts_interrupted Cases.interrupted 2 0 Demo.a_state
              Demo.a_compiled_state).
    + reflexivity.
    + reflexivity.
    + simpl. lia.
    + reflexivity.
    + reflexivity.
  - simpl. discriminate.
Defined.

Lemma optimize_restarts_nan_entry_witness :
  @recompile_if_needed Demo.doubles Cases.nan_state =
    (Ok tt, Cases.nan_state) /\
  (fst (@optimize_restarts Demo.doubles (VInt 2) Cases.nan_state) =
     Raise KeyboardInterrupt \/
   exists s',
     @optimize_restarts Demo.doubles (VInt 2) Cases.nan_state = (Ok tt, s') /\
     free_state s' = [S754_nan]).
Proof.
  assert (H1 : @recompile_if_needed Demo.doubles Cases.nan_state =
               (Ok tt, Cases.nan_state)) by reflexivity.
  split; [exact H1|].
  exact (@optimize_restarts_nan_entry Demo.doubles 2 Cases.nan_state
           Cases.nan_state [] H1 eq_refl).
Defined.

Lemma get_suggestion_missing_options_witness :
  0 <= 1 /\
  options Cases.a_bo_without_solver !! "nl_solver" = None /\
  forallb finite_range (bounds Cases.a_bo_without_solver) = true /\
  exists s',
    @get_suggestion Demo.doubles Cases.a_bo_without_solver (VInt 1)
      Demo.a_state = (Raise AssertionError, s').
Proof.
  assert (H1 : 0 <= 1) by lia.
  assert (H2 : forallb finite_range (bounds Cases.a_bo_without_solver) = true)
    by reflexivity.
  split; [exact H1|]. split; [reflexivity|]. split; [exact H2|].
  exact (proj2 (proj1 (@get_suggestion_missing_options Demo.doubles
                         doubles_numpy_laws Cases.a_bo_without_solver 1
                         Demo.a_state H1) 3 eq_refl eq_refl) H2).
Defined.

Lemma get_suggestion_interrupted_witness :
  0 <= 1 /\
  options Demo.a_bo !! "opt_restarts" = Some (VInt 3) /\
  exists s',
    @get_suggestion Cases.interrupted Demo.a_bo (VInt 1) Demo.a_state =
    (Raise KeyboardInterrupt, s').
Proof.
  assert (H1 : 0 <= 1) by lia.
  split; [exact H1|]. split; [reflexivity|].
  eexists.
  eapply (@get_suggestion_interrupted Cases.interrupted Demo.a_bo 1 3 0
            Demo.a_state).
  - exact H1.
  - reflexivity.
  - simpl. lia.
  - reflexivity.
  - reflexivity.
  - reflexivity.
Defined.

Lemma get_suggestion_shape_witness :
  0 <= 1 /\
  exists X s',
    @get_suggestion Demo.doubles Demo.a_bo (VInt 1) Demo.a_state =
      (Ok X, s') /\
    nrows X = 1%nat /\ ncols X = 2%nat.
Proof.
  assert (H1 : 0 <= 1) by lia.
  split; [exact H1|].
  destruct (@get_suggestion Demo.doubles Demo.a_bo (VInt 1) Demo.a_state)
    as [[X|e] s'] eqn:Hrun.
  - exists X, s'. split; [reflexivity|].
    exact (@get_suggestion_shape Demo.doubles doubles_numpy_laws
             doubles_shape_laws Demo.a_bo 1 Demo.a_state s' X H1 Hrun).
  - exfalso. vm_compute in Hrun. discriminate.
Defined.

Lemma BO_init_failure_points_witness :
  ({[1%positive := delete "kernel" Demo.config]}
     : gmap loc (gmap string pyval)) !! 1%positive =
    Some (delete "kernel" Demo.config) /\
  @BO_init Demo.doubles 1%positive
    {[1%positive := delete "kernel" Demo.config]} =
  (Raise KeyError,
   <[1%positive := with_mean_default (delete "kernel" Demo.config)]>
     {[1%positive := delete "kernel" Demo.config]}).
Proof.
  assert (H1 : ({[1%positive := delete "kernel" Demo.config]}
                  : gmap loc (gmap string pyval)) !! 1%positive =
               Some (delete "kernel" Demo.config)) by reflexivity.
  split; [exact H1|].
  apply (proj1 (proj2 (proj2 (@BO_init_failure_points Demo.doubles 1%positive
                                _ _ H1))) Demo.an_objective);
    reflexivity.
Defined.

Lemma BO_init_twice_witness :
  exists bo2 h2,
    @BO_init Demo.doubles 1%positive
      (snd (@BO_init Demo.doubles 1%positive {[1%positive := Demo.config]})) =
      (Ok bo2, h2) /\
    options bo2 = options Demo.a_bo /\
    options_ref bo2 <> options_ref Demo.a_bo.
Proof.
  assert (H1 : ({[1%positive := Demo.config]}
                  : gmap loc (gmap string pyval)) !! 1%positive =
               Some Demo.config) by reflexivity.
  assert (H2 : Demo.config !! "objective" =
               Some (VObjective Demo.an_objective)) by reflexivity.
  assert (Hrun : @BO_init Demo.doubles 1%positive
                   {[1%positive := Demo.config]} =
                 (Ok Demo.a_bo,
                  snd (@BO_init Demo.doubles 1%positive
                         {[1%positive := Demo.config]}))).
  { rewrite <- BO_init_builds_a_bo. apply surjective_pairing. }
  destruct (@BO_init_twice Demo.doubles 1%positive
              {[1%positive := Demo.config]} _ Demo.config
              Demo.an_objective Demo.a_bo H1 H2 Hrun)
    as (bo2 & h2 & Hrun2 & _ & _ & _ & Hne & _ & Hbo2).
  exists bo2, h2. split; [exact Hrun2|]. split; [|exact Hne].
  rewrite Hbo2. reflexivity.
Defined.

Lemma model_data_follows_history_witness :
  exists X_all y_all s',
    @bo_loop Demo.doubles Demo.a_bo Demo.a_state = (Ok (X_all, y_all), s') /\
    self_X s' = X_all /\ ncols (self_Y s') = 1%nat.
Proof.
  destruct (@bo_loop Demo.doubles Demo.a_bo Demo.a_state)
    as [[[X_all y_all]|e] s'] eqn:Hrun.
  - exists X_all, y_all, s'. split; [reflexivity|].
    destruct (@model_data_follows_history Demo.doubles Demo.a_bo Demo.a_state
                s' X_all y_all Hrun) as (HX & _ & _ & Hc).
    split; [exact HX|]. rewrite Hc.
    vm_compute in Hrun. inversion Hrun. reflexivity.
  - exfalso. vm_compute in Hrun. discriminate.
Defined.

Lemma history_starts_with_initial_design_witness :
  Forall (fun b => fle (fst b) (snd b) = true) (bounds Demo.a_bo) /\
  exists X_all y_all s' X0 s0,
    @bo_loop Demo.doubles Demo.a_bo Demo.a_state = (Ok (X_all, y_all), s') /\
    @random_sample Demo.doubles (bounds Demo.a_bo) (VInt 3) Demo.a_state =
      (Ok X0, s0) /\
    take 3 (rows X_all) = rows X0.
Proof.
  assert (H1 : Forall (fun b => fle (fst b) (snd b) = true)
                 (bounds Demo.a_bo)) by (repeat constructor).
  split; [exact H1|].
  destruct (@bo_loop Demo.doubles Demo.a_bo Demo.a_state)
    as [[[X_all y_all]|e] s'] eqn:Hrun.
  - destruct (proj1 (@history_starts_with_initial_design Demo.doubles
                doubles_numpy_laws doubles_shape_laws Demo.a_bo 2 1 3
                Demo.a_state s' X_all y_all eq_refl eq_refl eq_refl
                ltac:(lia) ltac:(lia) H1 Hrun)) as (X0 & s0 & Hs & Ht).
    exists X_all, y_all, s', X0, s0. auto.
  - exfalso. vm_compute in Hrun. discriminate.
Defined.
